(** * Safe-T mini plugin: transaction translation and signing session

    A shallow embedding of [electrum_dash/plugins/safe_t/safe_t.py].
    Python exceptions are an explicit error result, the host wallet and the
    device library (which live outside the plugin) are an interface class,
    the dictionary [prev_tx] is a finite map keyed by the hex transaction
    id, and the calls that leave the plugin are recorded in a trace. *)

From Stdlib Require Import ZArith Lia Ascii String DecimalString.
From stdpp Require Import base option list strings gmap sorting.

Local Open Scope Z_scope.
Local Open Scope string_scope.

(** ** Python values *)

Abbreviation bytes := (list Byte.byte).

(** The exceptions that can travel through the plugin. *)
Inductive exn : Type :=
  | AssertionError
  | ValueError (msg : string)
  | KeyError (key : string)
  | AttributeError (msg : string)
  | UserFacingException (msg : string)
  | HostError (msg : string).

Inductive result (A : Type) : Type :=
  | Ok (a : A)
  | Raise (e : exn).
Arguments Ok {A} a.
Arguments Raise {A} e.

Global Instance result_ret : MRet result := fun _ a => Ok a.
Global Instance result_bind : MBind result := fun _ _ f r =>
  match r with
  | Ok a => f a
  | Raise e => Raise e
  end.
Global Instance result_fmap : FMap result := fun _ _ f r =>
  match r with
  | Ok a => Ok (f a)
  | Raise e => Raise e
  end.

Definition is_Ok {A} (r : result A) : bool :=
  match r with Ok _ => true | Raise _ => false end.

(** [assert c] *)
Definition assert (c : bool) : result unit :=
  if c then Ok tt else Raise AssertionError.

(** [bytes.hex()] *)
Definition hex_digit (n : N) : ascii :=
  match n with
  | 0 => "0" | 1 => "1" | 2 => "2" | 3 => "3" | 4 => "4" | 5 => "5"
  | 6 => "6" | 7 => "7" | 8 => "8" | 9 => "9" | 10 => "a" | 11 => "b"
  | 12 => "c" | 13 => "d" | 14 => "e" | _ => "f"
  end%N%char.

Definition byte_hex (b : Byte.byte) : string :=
  let n := Byte.to_N b in
  String (hex_digit (n / 16)) (String (hex_digit (n mod 16)) EmptyString).

Fixpoint bytes_hex (bs : bytes) : string :=
  match bs with
  | [] => ""
  | b :: rest => byte_hex b +:+ bytes_hex rest
  end.

(** [int.from_bytes(bs, 'big')] *)
Definition int_from_bytes_big (bs : bytes) : Z :=
  fold_left (fun acc b => acc * 256 + Z.of_N (Byte.to_N b)) bs 0.

(** Truth value of an optional list ([if full_path:]) and of an optional
    string ([if address:]): [None] and the empty value are false. *)
Definition truthy_list {A} (o : option (list A)) : bool :=
  match o with
  | Some (_ :: _) => true
  | _ => false
  end.

Definition truthy_str (o : option string) : bool :=
  match o with
  | Some (String _ _) => true
  | _ => false
  end.

(** Order of Python tuples of two strings: the first components decide
    unless they are equal.  [sorted] returns the sorted permutation of its
    argument. *)
Definition pair_le (p q : string * string) : Prop :=
  if decide (p.1 = q.1) then String.le p.2 q.2 else String.le p.1 q.1.

Global Instance pair_le_dec : RelDecision pair_le.
Proof. intros p q. unfold pair_le. destruct (decide (p.1 = q.1)); apply _. Defined.

Definition sorted (l : list (string * string)) : list (string * string) :=
  merge_sort pair_le l.

(** ** The host wallet's transaction model *)

Record TxOutpoint := { txid : bytes; out_idx : Z }.

(** The fields a [PartialTxInput] adds to a [TxInput]. *)
Record PartialFields := {
  pubkeys : list bytes;
  num_sig : Z;
  script_type : string;
}.

Record TxOutput := {
  value : Z;
  scriptpubkey : bytes;
  address : option string;
  is_mine : bool;
  is_change : bool;
  out_partial : PartialFields;
}.

(** A transaction and its inputs; an input may carry the transaction it
    spends from ([utxo]).  [txin_partial] is [Some _] exactly for a
    [PartialTxInput], [is_partial] holds for a [PartialTransaction]. *)
Inductive Transaction : Type :=
  mkTransaction (tx_version tx_locktime : Z)
                (tx_inputs_ : list TxInput) (tx_outputs_ : list TxOutput)
                (tx_is_partial tx_is_complete : bool)
with TxInput : Type :=
  mkTxInput (in_prevout : TxOutpoint) (in_is_coinbase_input : bool)
            (in_value_sats : option Z) (in_script_sig : option bytes)
            (in_nsequence : Z) (in_utxo : option Transaction)
            (in_partial : option PartialFields).

Definition version (tx : Transaction) : Z :=
  let 'mkTransaction v _ _ _ _ _ := tx in v.
Definition locktime (tx : Transaction) : Z :=
  let 'mkTransaction _ l _ _ _ _ := tx in l.
Definition inputs (tx : Transaction) : list TxInput :=
  let 'mkTransaction _ _ i _ _ _ := tx in i.
Definition outputs (tx : Transaction) : list TxOutput :=
  let 'mkTransaction _ _ _ o _ _ := tx in o.
Definition is_partial (tx : Transaction) : bool :=
  let 'mkTransaction _ _ _ _ p _ := tx in p.
Definition is_complete (tx : Transaction) : bool :=
  let 'mkTransaction _ _ _ _ _ c := tx in c.

Definition prevout (i : TxInput) : TxOutpoint :=
  let 'mkTxInput p _ _ _ _ _ _ := i in p.
Definition is_coinbase_input (i : TxInput) : bool :=
  let 'mkTxInput _ c _ _ _ _ _ := i in c.
Definition value_sats (i : TxInput) : option Z :=
  let 'mkTxInput _ _ v _ _ _ _ := i in v.
Definition script_sig (i : TxInput) : option bytes :=
  let 'mkTxInput _ _ _ s _ _ _ := i in s.
Definition nsequence (i : TxInput) : Z :=
  let 'mkTxInput _ _ _ _ n _ _ := i in n.
Definition utxo (i : TxInput) : option Transaction :=
  let 'mkTxInput _ _ _ _ _ u _ := i in u.
Definition txin_partial (i : TxInput) : option PartialFields :=
  let 'mkTxInput _ _ _ _ _ _ p := i in p.

(** What [keystore.find_my_pubkey_in_txinout] and
    [get_xpubs_and_der_suffixes_from_txinout] are handed. *)
Inductive TxInOut : Type :=
  | of_txin (i : TxInput)
  | of_txout (o : TxOutput).

(** A decoded extended public key ([BIP32Node]). *)
Record BIP32Node := {
  depth : Z;
  fingerprint : bytes;
  child_number : bytes;
  chaincode : bytes;
  public_key_bytes : bytes;
}.

(** ** The device library's messages ([safetlib.messages]) *)

Inductive InputScriptType := SPENDADDRESS | SPENDMULTISIG.
Inductive OutputScriptType := PAYTOADDRESS | PAYTOMULTISIG | PAYTOOPRETURN.

Record HDNodeType := {
  hd_depth : Z;
  hd_fingerprint : Z;
  hd_child_num : Z;
  hd_chain_code : bytes;
  hd_public_key : bytes;
}.

Record HDNodePathType := { node : HDNodeType; node_address_n : list Z }.

Record MultisigRedeemScriptType := {
  ms_pubkeys : list HDNodePathType;
  ms_signatures : list bytes;
  ms_m : Z;
}.

Record TxInputType := {
  ti_address_n : list Z;
  ti_prev_hash : option bytes;
  ti_prev_index : option Z;
  ti_script_sig : option bytes;
  ti_sequence : option Z;
  ti_script_type : option InputScriptType;
  ti_multisig : option MultisigRedeemScriptType;
  ti_amount : option Z;
}.

Record TxOutputType := {
  to_address : option string;
  to_address_n : list Z;
  to_amount : option Z;
  to_script_type : option OutputScriptType;
  to_multisig : option MultisigRedeemScriptType;
  to_op_return_data : option bytes;
}.

Record TxOutputBinType := { bin_amount : Z; bin_script_pubkey : bytes }.

Record TransactionType := {
  tt_version : option Z;
  tt_lock_time : option Z;
  tt_inputs : list TxInputType;
  tt_bin_outputs : list TxOutputBinType;
}.

(** [self.types.TxInputType()], [TxOutputType()], [TransactionType()] *)
Definition TxInputType_new : TxInputType :=
  {| ti_address_n := []; ti_prev_hash := None; ti_prev_index := None;
     ti_script_sig := None; ti_sequence := None; ti_script_type := None;
     ti_multisig := None; ti_amount := None |}.

Definition TxOutputType_new : TxOutputType :=
  {| to_address := None; to_address_n := []; to_amount := None;
     to_script_type := None; to_multisig := None;
     to_op_return_data := None |}.

Definition TransactionType_new : TransactionType :=
  {| tt_version := None; tt_lock_time := None; tt_inputs := [];
     tt_bin_outputs := [] |}.

(** ** The device library's client *)

(** Modelled from the spec: [client.sign_tx] of the device library, which
    is not part of the plugin.  The call is a conversation: the device asks
    for previous transactions by hash, any number of times, and then either
    returns the signatures (with the serialized transaction) or fails. *)
Inductive DeviceScript : Type :=
  | SignDone (signatures : list bytes) (serialized_tx : bytes)
  | SignFailed (e : exn)
  | TxRequest (tx_hash : string) (k : TransactionType → DeviceScript).

Record SafeTClient := {
  sign_tx : string → list TxInputType → list TxOutputType → Z → Z →
            DeviceScript;
}.

(** Modelled from the spec: how the library runs the conversation.  It
    answers every [TxRequest] through the plugin's [get_tx]; an exception
    raised by [get_tx] ends [sign_tx] and reaches the caller. *)
Fixpoint run_sign_tx (get_tx : string → result TransactionType)
    (d : DeviceScript) : result (list bytes * bytes) :=
  match d with
  | SignDone sigs ser => Ok (sigs, ser)
  | SignFailed e => Raise e
  | TxRequest h k =>
      match get_tx h with
      | Ok t => run_sign_tx get_tx (k t)
      | Raise e => Raise e
      end
  end.

(** ** What the plugin imports from the rest of the wallet *)
Class Host := {
  KeyStore : Type;
  (** [BIP32Node.from_xkey] *)
  from_xkey : string → result BIP32Node;
  (** [hw_wallet.plugin.get_xpubs_and_der_suffixes_from_txinout] *)
  get_xpubs_and_der_suffixes_from_txinout :
    Transaction → TxInOut → result (list (string * list Z));
  (** [keystore.find_my_pubkey_in_txinout] *)
  find_my_pubkey_in_txinout :
    KeyStore → TxInOut → option bytes * option (list Z);
  (** [hw_wallet.plugin.is_any_tx_output_on_change_branch] *)
  is_any_tx_output_on_change_branch : Transaction → bool;
  (** [hw_wallet.plugin.trezor_validate_op_return_output_and_get_data] *)
  trezor_validate_op_return_output_and_get_data : TxOutput → result bytes;
  (** [util.bh2u] *)
  bh2u : bytes → string;
  (** [tx.deserialize()], giving the parsed transaction *)
  deserialize : Transaction → result Transaction;
  (** [tx.update_signatures(signatures)], giving the updated transaction *)
  update_signatures : Transaction → list string → result Transaction;
  (** [constants.net.TESTNET] *)
  TESTNET : bool;
  (** [HW_PluginBase.get_client] followed by [client.used()] *)
  get_client : KeyStore → result (option SafeTClient);
}.

(** ** The signing session's state

    [plugin_prev_tx] is [self.prev_tx], [wallet_tx] the transaction object
    the wallet hands to [sign_transaction], and [device_log] the calls made
    to the device so far (latest first). *)
Inductive DeviceCall : Type :=
  | CallGetClient
  | CallSignTx (coin_name : string) (ins : list TxInputType)
               (outs : list TxOutputType) (lock_time ver : Z).

Record World := {
  plugin_prev_tx : gmap string Transaction;
  wallet_tx : Transaction;
  device_log : list DeviceCall;
}.

Definition Session (A : Type) : Type := World → result A * World.

Definition sret {A} (a : A) : Session A := fun w => (Ok a, w).
Definition sbind {A B} (m : Session A) (f : A → Session B) : Session B :=
  fun w =>
    match m w with
    | (Ok a, w') => f a w'
    | (Raise e, w') => (Raise e, w')
    end.
Definition lift {A} (r : result A) : Session A := fun w => (r, w).
Definition read_tx : Session Transaction := fun w => (Ok (wallet_tx w), w).
Definition write_tx (tx : Transaction) : Session unit := fun w =>
  (Ok tt, {| plugin_prev_tx := plugin_prev_tx w; wallet_tx := tx;
             device_log := device_log w |}).
Definition set_prev_tx (m : gmap string Transaction) : Session unit := fun w =>
  (Ok tt, {| plugin_prev_tx := m; wallet_tx := wallet_tx w;
             device_log := device_log w |}).
Definition read_prev_tx : Session (gmap string Transaction) := fun w =>
  (Ok (plugin_prev_tx w), w).
Definition call_device (c : DeviceCall) : Session unit := fun w =>
  (Ok tt, {| plugin_prev_tx := plugin_prev_tx w; wallet_tx := wallet_tx w;
             device_log := c :: device_log w |}).

Declare Scope session_scope.
Delimit Scope session_scope with session.
Notation "x <~ m ;; k" := (sbind m (fun x => k))
  (at level 100, m at next level, right associativity) : session_scope.
Notation "m ;;; k" := (sbind m (fun _ => k))
  (at level 100, right associativity) : session_scope.

(** ** [class SafeTPlugin] *)
Module SafeTPlugin.
Section plugin.
Context `{Host}.

Definition get_coin_name : string :=
  if TESTNET then "Dash Testnet" else "Dash".

Definition _make_node_path (xpub : string) (address_n : list Z)
    : result HDNodePathType :=
  bip32node ← from_xkey xpub;
  let node :=
    {| hd_depth := depth bip32node;
       hd_fingerprint := int_from_bytes_big (fingerprint bip32node);
       hd_child_num := int_from_bytes_big (child_number bip32node);
       hd_chain_code := chaincode bip32node;
       hd_public_key := public_key_bytes bip32node |} in
  mret {| node := node; node_address_n := address_n |}.

Definition get_safet_input_script_type (electrum_txin_type : string)
    : result InputScriptType :=
  if decide (electrum_txin_type = "p2pkh") then Ok SPENDADDRESS
  else if decide (electrum_txin_type = "p2sh") then Ok SPENDMULTISIG
  else Raise (ValueError ("unexpected txin type: " +:+ electrum_txin_type)).

Definition get_safet_output_script_type (electrum_txin_type : string)
    : result OutputScriptType :=
  if decide (electrum_txin_type = "p2pkh") then Ok PAYTOADDRESS
  else if decide (electrum_txin_type = "p2sh") then Ok PAYTOMULTISIG
  else Raise (ValueError ("unexpected txin type: " +:+ electrum_txin_type)).

Definition _make_multisig (m : Z) (xpubs : list (string * list Z))
    : result (option MultisigRedeemScriptType) :=
  if decide (length xpubs = 1%nat) then Ok None
  else
    pubkeys ← mapM (fun '(xpub, deriv) => _make_node_path xpub deriv) xpubs;
    mret (Some {| ms_pubkeys := pubkeys;
                  ms_signatures := replicate (length pubkeys) [];
                  ms_m := m |}).

(** The part of [show_address] that prepares the multisig descriptor from
    the wallet's master public keys [xpubs], the public keys [pubkeys] of
    the address and the address index [deriv_suffix]. *)
Definition show_address_multisig (m : Z) (xpubs pubkeys : list string)
    (deriv_suffix : list Z) : result (option MultisigRedeemScriptType) :=
  if decide (1 < length xpubs)%nat then
    let sorted_pairs := sorted (zip pubkeys xpubs) in
    _make_multisig m (map (fun '(pubkey, xpub) => (xpub, deriv_suffix))
                          sorted_pairs)
  else Ok None.

(** The multisig descriptor of an input or output: built when it has more
    than one public key. *)
Definition multisig_of (tx : Transaction) (io : TxInOut) (p : PartialFields)
    : result (option MultisigRedeemScriptType) :=
  if decide (1 < length (pubkeys p))%nat then
    xpubs_and_deriv_suffixes ← get_xpubs_and_der_suffixes_from_txinout tx io;
    _make_multisig (num_sig p) xpubs_and_deriv_suffixes
  else Ok None.

(** The [for_sig] branch of [tx_inputs], for an input that is not a
    coinbase input. *)
Definition tx_input_for_sig (tx : Transaction) (keystore : option KeyStore)
    (txin : TxInput) : result TxInputType :=
  _ ← assert (is_partial tx);
  p ← match txin_partial txin with
      | Some p => Ok p
      | None => Raise AssertionError
      end;
  ks ← match keystore with
       | Some ks => Ok ks
       | None => Raise AssertionError
       end;
  multisig ← multisig_of tx (of_txin txin) p;
  script_type ← get_safet_input_script_type (script_type p);
  let '(my_pubkey, full_path) := find_my_pubkey_in_txinout ks (of_txin txin) in
  mret {| ti_address_n :=
            if truthy_list full_path then default [] full_path else [];
          ti_prev_hash := None; ti_prev_index := None;
          ti_script_sig := None; ti_sequence := None;
          ti_script_type := Some script_type;
          ti_multisig := multisig;
          ti_amount := None |}.

(** One turn of the loop of [tx_inputs]. *)
Definition tx_input (tx : Transaction) (for_sig : bool)
    (keystore : option KeyStore) (txin : TxInput) : result TxInputType :=
  '(txinputtype, prev_hash, prev_index) ←
    (if is_coinbase_input txin then
       Ok (TxInputType_new, replicate 32 Byte.x00, 0xffffffff)
     else
       txinputtype ←
         (if for_sig then tx_input_for_sig tx keystore txin
          else Ok TxInputType_new);
       mret (txinputtype, txid (prevout txin), out_idx (prevout txin)));
  mret {| ti_address_n := ti_address_n txinputtype;
          ti_prev_hash := Some prev_hash;
          ti_prev_index := Some prev_index;
          ti_script_sig :=
            match script_sig txin with
            | Some s => Some s
            | None => ti_script_sig txinputtype
            end;
          ti_sequence := Some (nsequence txin);
          ti_script_type := ti_script_type txinputtype;
          ti_multisig := ti_multisig txinputtype;
          ti_amount :=
            match value_sats txin with
            | Some v => Some v
            | None => ti_amount txinputtype
            end |}.

Definition tx_inputs (tx : Transaction) (for_sig : bool)
    (keystore : option KeyStore) : result (list TxInputType) :=
  mapM (tx_input tx for_sig keystore) (inputs tx).

Definition create_output_by_derivation (tx : Transaction)
    (keystore : KeyStore) (txout : TxOutput) : result TxOutputType :=
  script_type ← get_safet_output_script_type (script_type (out_partial txout));
  multisig ← multisig_of tx (of_txout txout) (out_partial txout);
  let '(my_pubkey, full_path) :=
    find_my_pubkey_in_txinout keystore (of_txout txout) in
  _ ← assert (truthy_list full_path);
  mret {| to_address := None;
          to_address_n := default [] full_path;
          to_amount := Some (value txout);
          to_script_type := Some script_type;
          to_multisig := multisig;
          to_op_return_data := None |}.

Definition create_output_by_address (txout : TxOutput)
    : result TxOutputType :=
  let address := address txout in
  if truthy_str address then
    Ok {| to_address := address;
          to_address_n := [];
          to_amount := Some (value txout);
          to_script_type := Some PAYTOADDRESS;
          to_multisig := None;
          to_op_return_data := None |}
  else
    data ← trezor_validate_op_return_output_and_get_data txout;
    mret {| to_address := None;
            to_address_n := [];
            to_amount := Some (value txout);
            to_script_type := Some PAYTOOPRETURN;
            to_multisig := None;
            to_op_return_data := Some data |}.

(** Whether the loop of [tx_outputs] sets [use_create_by_derivation] for
    [txout], given the current [has_change]. *)
Definition use_create_by_derivation (any_output_on_change_branch : bool)
    (has_change : bool) (txout : TxOutput) : bool :=
  if is_mine txout && negb has_change then
    if decide (is_change txout = any_output_on_change_branch) then true
    else false
  else false.

(** The loop of [tx_outputs]; [has_change] is the loop's flag, the result
    is the list the loop appends to. *)
Fixpoint tx_outputs_loop (tx : Transaction) (keystore : KeyStore)
    (any_output_on_change_branch : bool) (has_change : bool)
    (txouts : list TxOutput) : result (list TxOutputType) :=
  match txouts with
  | [] => Ok []
  | txout :: rest =>
      let use := use_create_by_derivation any_output_on_change_branch
                   has_change txout in
      let has_change := if use then true else has_change in
      txoutputtype ←
        (if use then create_output_by_derivation tx keystore txout
         else create_output_by_address txout);
      outputs ← tx_outputs_loop tx keystore any_output_on_change_branch
                  has_change rest;
      mret (txoutputtype :: outputs)
  end.

Definition tx_outputs (tx : Transaction) (keystore : KeyStore)
    : result (list TxOutputType) :=
  tx_outputs_loop tx keystore (is_any_tx_output_on_change_branch tx) false
    (outputs tx).

Definition electrum_tx_to_txtype (tx : option Transaction)
    : result TransactionType :=
  match tx with
  | None => Ok TransactionType_new
  | Some tx =>
      tx ← deserialize tx;
      inputs ← tx_inputs tx false None;
      mret {| tt_version := Some (version tx);
              tt_lock_time := Some (locktime tx);
              tt_inputs := inputs;
              tt_bin_outputs :=
                map (fun out => {| bin_amount := value out;
                                   bin_script_pubkey := scriptpubkey out |})
                    (outputs tx) |}
  end.

(** [get_tx], reading [self.prev_tx]. *)
Definition get_tx (prev_tx : gmap string Transaction) (tx_hash : string)
    : result TransactionType :=
  match prev_tx !! tx_hash with
  | Some tx => electrum_tx_to_txtype (Some tx)
  | None => Raise (KeyError tx_hash)
  end.

Local Open Scope session_scope.

Definition sign_transaction (keystore : KeyStore)
    (prev_tx : gmap string Transaction) : Session unit :=
  tx <~ read_tx ;;
  set_prev_tx prev_tx ;;;
  call_device CallGetClient ;;;
  client <~ lift (get_client keystore) ;;
  inputs <~ lift (tx_inputs tx true (Some keystore)) ;;
  outputs <~ lift (tx_outputs tx keystore) ;;
  client <~ lift (match client with
                  | Some c => Ok c
                  | None => Raise (AttributeError "sign_tx")
                  end) ;;
  call_device (CallSignTx get_coin_name inputs outputs
                 (locktime tx) (version tx)) ;;;
  reply <~ (fun w => (run_sign_tx (get_tx (plugin_prev_tx w))
                        (sign_tx client get_coin_name inputs outputs
                           (locktime tx) (version tx)), w)) ;;
  let signatures := map (fun x => bh2u x +:+ "01") reply.1 in
  tx' <~ lift (update_signatures tx signatures) ;;
  write_tx tx'.

End plugin.
End SafeTPlugin.

(** ** [class SafeTKeyStore] *)
Module SafeTKeyStore.
Section keystore.
Context `{Host}.

(** The loop that fills [prev_tx]. *)
Fixpoint collect_prev_tx (prev_tx : gmap string Transaction)
    (txins : list TxInput) : result (gmap string Transaction) :=
  match txins with
  | [] => Ok prev_tx
  | txin :: rest =>
      let tx_hash := bytes_hex (txid (prevout txin)) in
      match utxo txin with
      | None =>
          Raise (UserFacingException "Missing previous tx for legacy input.")
      | Some u => collect_prev_tx (<[tx_hash := u]> prev_tx) rest
      end
  end.

Local Open Scope session_scope.

Definition sign_transaction (keystore : KeyStore) : Session unit :=
  tx <~ read_tx ;;
  if is_complete tx then sret tt
  else
    prev_tx <~ lift (collect_prev_tx ∅ (inputs tx)) ;;
    SafeTPlugin.sign_transaction keystore prev_tx.

End keystore.
End SafeTKeyStore.

(** ** Notions the specification uses *)

(** An output request is emitted "by derivation" when it carries a
    derivation path. *)
Definition emitted_by_derivation (o : TxOutputType) : bool :=
  match to_address_n o with
  | [] => false
  | _ :: _ => true
  end.

(** Stripping the fields that only active signing fills in: derivation
    path, multisig descriptor and script type. *)
Definition strip_active_signing_fields (r : TxInputType) : TxInputType :=
  {| ti_address_n := [];
     ti_prev_hash := ti_prev_hash r;
     ti_prev_index := ti_prev_index r;
     ti_script_sig := ti_script_sig r;
     ti_sequence := ti_sequence r;
     ti_script_type := None;
     ti_multisig := None;
     ti_amount := ti_amount r |}.

(** The request of a coinbase input: the sentinel previous output and no
    signing metadata. *)
Definition is_coinbase_sentinel (r : TxInputType) : Prop :=
  ti_prev_hash r = Some (replicate 32 Byte.x00) ∧
  ti_prev_index r = Some 0xffffffff ∧
  ti_address_n r = [] ∧
  ti_multisig r = None ∧
  ti_script_type r = None.

(** A null output: no destination address, and not one of the wallet's. *)
Definition is_null_output (txout : TxOutput) : bool :=
  negb (truthy_str (address txout)) && negb (is_mine txout).

(** Two multisig results that agree up to the order of the co-signers. *)
Definition same_cosigners
    (r1 r2 : result (option MultisigRedeemScriptType)) : Prop :=
  match r1, r2 with
  | Ok None, Ok None => True
  | Ok (Some d1), Ok (Some d2) =>
      ms_pubkeys d1 ≡ₚ ms_pubkeys d2 ∧
      ms_signatures d1 = ms_signatures d2 ∧
      ms_m d1 = ms_m d2
  | Raise _, Raise _ => True
  | _, _ => False
  end.

(** During [sign_tx] the device asks for the transaction [h], which
    [prev_tx] does not hold, after requests that were all answered. *)
Inductive requests_missing `{Host} (prev_tx : gmap string Transaction)
    : DeviceScript → string → Prop :=
  | requests_missing_now h k :
      prev_tx !! h = None →
      requests_missing prev_tx (TxRequest h k) h
  | requests_missing_later h' k t h :
      SafeTPlugin.get_tx prev_tx h' = Ok t →
      requests_missing prev_tx (k t) h →
      requests_missing prev_tx (TxRequest h' k) h.

(** The world in which the device is asked to sign: [prev_tx] is stored,
    the client was fetched and [sign_tx] called. *)
Definition at_sign_tx `{Host} (w : World) (prev_tx : gmap string Transaction)
    (ins : list TxInputType) (outs : list TxOutputType) : World :=
  {| plugin_prev_tx := prev_tx;
     wallet_tx := wallet_tx w;
     device_log :=
       CallSignTx SafeTPlugin.get_coin_name ins outs
         (locktime (wallet_tx w)) (version (wallet_tx w))
       :: CallGetClient :: device_log w |}.

(** ** A small wallet and device to run the plugin on *)
Module Sample.

Fixpoint bytes_eqb (a b : bytes) : bool :=
  match a, b with
  | [], [] => true
  | x :: a', y :: b' => Byte.eqb x y && bytes_eqb a' b'
  | _, _ => false
  end.

(** A keystore knows the full path of some public keys and is paired
    with a device. *)
Record keystore := {
  known_keys : list (bytes * list Z);
  device : SafeTClient;
}.

Fixpoint path_of (keys : list (bytes * list Z)) (pk : bytes)
    : option (list Z) :=
  match keys with
  | [] => None
  | (k, path) :: rest => if bytes_eqb k pk then Some path else path_of rest pk
  end.

Fixpoint find_pubkey (keys : list (bytes * list Z)) (pks : list bytes)
    : option bytes * option (list Z) :=
  match pks with
  | [] => (None, None)
  | pk :: rest =>
      match path_of keys pk with
      | Some path => (Some pk, Some path)
      | None => find_pubkey keys rest
      end
  end.

Definition pubkeys_of (io : TxInOut) : list bytes :=
  match io with
  | of_txin i =>
      match txin_partial i with
      | Some p => pubkeys p
      | None => []
      end
  | of_txout o => pubkeys (out_partial o)
  end.

Definition decode_xkey (xpub : string) : result BIP32Node :=
  match xpub with
  | "" => Raise (HostError "invalid extended key")
  | _ =>
      Ok {| depth := 3;
            fingerprint := [Byte.x00; Byte.x00; Byte.x01; Byte.x02];
            child_number := [Byte.x80; Byte.x00; Byte.x00; Byte.x00];
            chaincode := [];
            public_key_bytes := list_byte_of_string xpub |}
  end.

Definition validate_op_return (txout : TxOutput) : result bytes :=
  match scriptpubkey txout with
  | Byte.x6a :: len :: data =>
      if (Z.of_N (Byte.to_N len) =? Z.of_nat (length data))%Z
         && (Z.of_N (Byte.to_N len) <=? 75)%Z
      then Ok data
      else Raise (UserFacingException
             "Only OP_RETURN scripts, with one constant push, are supported.")
  | _ => Raise (UserFacingException "Only OP_RETURN scripts are supported.")
  end.

Definition set_complete (tx : Transaction) : Transaction :=
  mkTransaction (version tx) (locktime tx) (inputs tx) (outputs tx)
    (is_partial tx) true.

Global Instance host : Host := {|
  KeyStore := keystore;
  from_xkey := decode_xkey;
  get_xpubs_and_der_suffixes_from_txinout := fun tx io =>
    Ok (map (fun pk => ("xpub" +:+ bytes_hex pk, [0; 5])) (pubkeys_of io));
  find_my_pubkey_in_txinout := fun ks io =>
    find_pubkey (known_keys ks) (pubkeys_of io);
  is_any_tx_output_on_change_branch := fun tx =>
    existsb is_change (outputs tx);
  trezor_validate_op_return_output_and_get_data := validate_op_return;
  bh2u := bytes_hex;
  deserialize := fun tx => Ok tx;
  update_signatures := fun tx sigs =>
    if decide (length sigs = length (inputs tx)) then Ok (set_complete tx)
    else Raise (HostError "wrong number of signatures");
  TESTNET := false;
  get_client := fun ks => Ok (Some (device ks));
|}.

(** A device that asks for the previous transaction of every input and
    then signs each input. *)
Fixpoint ask_all (todo : list TxInputType) (sigs : list bytes)
    : DeviceScript :=
  match todo with
  | [] => SignDone sigs []
  | i :: rest =>
      TxRequest (bytes_hex (default [] (ti_prev_hash i)))
                (fun _ => ask_all rest sigs)
  end.

Definition good_device : SafeTClient :=
  {| sign_tx := fun _ ins _ _ _ =>
       ask_all ins (map (fun _ => [Byte.x30; Byte.x44]) ins) |}.

(** A device that asks for a transaction nobody spends from. *)
Definition stray_device : SafeTClient :=
  {| sign_tx := fun _ ins _ _ _ =>
       TxRequest "ff" (fun _ => SignDone [] []) |}.

Definition my_key : bytes := [Byte.x02; Byte.xaa].
Definition my_change_key : bytes := [Byte.x03; Byte.xbb].
Definition other_key : bytes := [Byte.x02; Byte.xcc].

Definition ks (d : SafeTClient) : @KeyStore host :=
  {| known_keys := [(my_key, [0; 0; 5]); (my_change_key, [0; 1; 2])];
     device := d |}.

(** The transaction the owned input spends from. *)
Definition funding_tx : Transaction :=
  mkTransaction 2 0
    [mkTxInput {| txid := replicate 32 Byte.x00; out_idx := 0xffffffff |}
       true None (Some [Byte.x51]) 0xffffffff None None]
    [{| value := 5000; scriptpubkey := [Byte.x76; Byte.xa9];
        address := Some "XmyAddress"; is_mine := false; is_change := false;
        out_partial := {| pubkeys := []; num_sig := 0;
                          script_type := "unknown" |} |}]
    false true.

Definition coinbase_txin : TxInput :=
  mkTxInput {| txid := replicate 32 Byte.x00; out_idx := 0xffffffff |}
    true (Some 100) None 0xffffffff (Some funding_tx) None.

Definition owned_txin : TxInput :=
  mkTxInput {| txid := [Byte.x12; Byte.x34]; out_idx := 1 |}
    false (Some 5000) None 0xfffffffe (Some funding_tx)
    (Some {| pubkeys := [my_key]; num_sig := 0; script_type := "p2pkh" |}).

(** An input of the wallet whose public key the keystore does not know. *)
Definition pathless_txin : TxInput :=
  mkTxInput {| txid := [Byte.x56; Byte.x78]; out_idx := 0 |}
    false (Some 700) None 0xfffffffe (Some funding_tx)
    (Some {| pubkeys := [other_key]; num_sig := 0;
             script_type := "p2pkh" |}).

Definition change_txout : TxOutput :=
  {| value := 1000; scriptpubkey := [Byte.x76; Byte.xa9];
     address := Some "XchangeAddress"; is_mine := true; is_change := true;
     out_partial := {| pubkeys := [my_change_key]; num_sig := 0;
                       script_type := "p2pkh" |} |}.

Definition external_txout : TxOutput :=
  {| value := 3900; scriptpubkey := [Byte.x76; Byte.xa9];
     address := Some "XsomeoneElse"; is_mine := false; is_change := false;
     out_partial := {| pubkeys := []; num_sig := 0;
                       script_type := "unknown" |} |}.

(** An OP_RETURN output whose push length (2) does not match its payload
    (1 byte). *)
Definition bad_null_txout : TxOutput :=
  {| value := 0; scriptpubkey := [Byte.x6a; Byte.x02; Byte.xee];
     address := None; is_mine := false; is_change := false;
     out_partial := {| pubkeys := []; num_sig := 0;
                       script_type := "unknown" |} |}.

Definition tx (ins : list TxInput) (outs : list TxOutput) : Transaction :=
  mkTransaction 2 0 ins outs true false.

Definition world (t : Transaction) : World :=
  {| plugin_prev_tx := ∅; wallet_tx := t; device_log := [] |}.

(** The spending transaction of the examples: a coinbase input and an
    input of the wallet, a change output and a payment. *)
Definition spend : Transaction :=
  tx [coinbase_txin; owned_txin] [change_txout; external_txout].

(** The map the keystore fills for [spend]. *)
Definition spend_prev_tx : gmap string Transaction :=
  <[bytes_hex (txid (prevout owned_txin)) := funding_tx]>
    (<[bytes_hex (txid (prevout coinbase_txin)) := funding_tx]> ∅).

(** The requests [spend] is translated to for active signing. *)
Definition spend_inputs : list TxInputType :=
  [{| ti_address_n := [];
      ti_prev_hash := Some (replicate 32 Byte.x00);
      ti_prev_index := Some 0xffffffff;
      ti_script_sig := None;
      ti_sequence := Some 0xffffffff;
      ti_script_type := None;
      ti_multisig := None;
      ti_amount := Some 100 |};
   {| ti_address_n := [0; 0; 5];
      ti_prev_hash := Some [Byte.x12; Byte.x34];
      ti_prev_index := Some 1;
      ti_script_sig := None;
      ti_sequence := Some 0xfffffffe;
      ti_script_type := Some SPENDADDRESS;
      ti_multisig := None;
      ti_amount := Some 5000 |}].

Definition spend_outputs : list TxOutputType :=
  [{| to_address := None;
      to_address_n := [0; 1; 2];
      to_amount := Some 1000;
      to_script_type := Some PAYTOADDRESS;
      to_multisig := None;
      to_op_return_data := None |};
   {| to_address := Some "XsomeoneElse";
      to_address_n := [];
      to_amount := Some 3900;
      to_script_type := Some PAYTOADDRESS;
      to_multisig := None;
      to_op_return_data := None |}].

Definition xpub_pairs : list (string * list Z) :=
  [("xpubA", [0; 5]); ("xpubB", [0; 5])].

End Sample.

(** More transactions for the sample wallet. *)
Module SampleMore.
Import Sample.

(** An input of a script type the device does not know. *)
Definition p2pk_txin : TxInput :=
  mkTxInput {| txid := [Byte.x9a; Byte.xbc]; out_idx := 0 |}
    false (Some 900) None 0xfffffffe (Some funding_tx)
    (Some {| pubkeys := [my_key]; num_sig := 0; script_type := "p2pk" |}).

(** An input whose previous transaction the wallet does not have. *)
Definition bare_txin : TxInput :=
  mkTxInput {| txid := [Byte.xde; Byte.xf0]; out_idx := 2 |}
    false (Some 300) None 0xfffffffe None
    (Some {| pubkeys := [my_key]; num_sig := 0; script_type := "p2pkh" |}).

(** A change output of the wallet whose key the keystore does not know. *)
Definition unresolved_txout : TxOutput :=
  {| value := 1200; scriptpubkey := [Byte.x76; Byte.xa9];
     address := Some "XotherChange"; is_mine := true; is_change := true;
     out_partial := {| pubkeys := [other_key]; num_sig := 0;
                       script_type := "p2pkh" |} |}.

(** [spend] as a transaction that is not a partial transaction. *)
Definition plain_spend : Transaction :=
  mkTransaction 2 0 [coinbase_txin; owned_txin]
    [change_txout; external_txout] false false.

(** The requests of [spend] one by one. *)
Definition owned_request : TxInputType :=
  {| ti_address_n := [0; 0; 5];
     ti_prev_hash := Some [Byte.x12; Byte.x34];
     ti_prev_index := Some 1;
     ti_script_sig := None;
     ti_sequence := Some 0xfffffffe;
     ti_script_type := Some SPENDADDRESS;
     ti_multisig := None;
     ti_amount := Some 5000 |}.

Definition change_request : TxOutputType :=
  {| to_address := None;
     to_address_n := [0; 1; 2];
     to_amount := Some 1000;
     to_script_type := Some PAYTOADDRESS;
     to_multisig := None;
     to_op_return_data := None |}.

Definition external_request : TxOutputType :=
  {| to_address := Some "XsomeoneElse";
     to_address_n := [];
     to_amount := Some 3900;
     to_script_type := Some PAYTOADDRESS;
     to_multisig := None;
     to_op_return_data := None |}.


End SampleMore.

(** An output the wallet owns whose change flag is the transaction's
    change-branch classification [any]. *)
Definition matches_change_branch (any : bool) (txout : TxOutput) : bool :=
  is_mine txout && bool_decide (is_change txout = any).

(** The value of a hexadecimal digit. *)
Definition hex_value (c : ascii) : N :=
  match c with
  | "0" => 0 | "1" => 1 | "2" => 2 | "3" => 3 | "4" => 4 | "5" => 5
  | "6" => 6 | "7" => 7 | "8" => 8 | "9" => 9 | "a" => 10 | "b" => 11
  | "c" => 12 | "d" => 13 | "e" => 14 | _ => 15
  end%char%N.

(** ** Device set-up: [create_client] and [_initialize_device] *)

(** The Python values the wizard hands over in [settings]. *)
Inductive pyval : Type :=
  | PInt (z : Z)
  | PStr (s : string)
  | PBool (b : bool)
  | PNone.

(** What can be raised while a device is set up. *)
Inductive raised : Type :=
  | UserCancelled
  | TypeError
  | PlainException (msg : string)
  | UserFacing (msg : string)
  | DeviceFailure (what : string).

Inductive outcome (A : Type) : Type :=
  | Done (a : A)
  | Raised (e : raised).
Arguments Done {A} a.
Arguments Raised {A} e.

(** [v + n] for an integer [n]: defined on integers and booleans. *)
Definition py_add_int (v : pyval) (n : Z) : outcome Z :=
  match v with
  | PInt z => Done (z + n)
  | PBool b => Done (Z.b2z b + n)
  | PStr _ | PNone => Raised TypeError
  end.

(** [str(v)] *)
Definition py_str (v : pyval) : string :=
  match v with
  | PInt z => NilZero.string_of_int (Z.to_int z)
  | PStr s => s
  | PBool true => "True"
  | PBool false => "False"
  | PNone => "None"
  end.

(** Safe-T mini initialization methods *)
Definition TIM_NEW : Z := 0.
Definition TIM_RECOVER : Z := 1.
Definition TIM_MNEMONIC : Z := 2.
Definition TIM_PRIVKEY : Z := 3.

(** What the set-up code does to the handler, the device and the wizard;
    a keyword argument that is not passed is [None]. *)
Inductive SetupEvent : Type :=
  | ShowError (msg : string) (blocking : option bool)
  | LogException
  | SetStep (step : Z)
  | ResetDevice (display_random : bool) (strength : Z)
      (passphrase_protection pin_protection label : pyval)
      (language : string) (u2f_counter : Z) (skip_backup : bool)
  | RecoveryDevice (word_count : Z)
      (passphrase_protection pin_protection label : pyval) (language : string)
  | LoadDeviceByMnemonic (mnemonic : string)
      (pin passphrase_protection label : pyval) (language : string)
  | LoadDeviceByXprv (xprv : pyval)
      (pin passphrase_protection label : pyval) (language : string)
  | LoopExit (exit_code : Z).

Definition is_device_command (ev : SetupEvent) : bool :=
  match ev with
  | ResetDevice _ _ _ _ _ _ _ _ | RecoveryDevice _ _ _ _ _
  | LoadDeviceByMnemonic _ _ _ _ _ | LoadDeviceByXprv _ _ _ _ _ => true
  | _ => false
  end.

Definition is_loop_exit (ev : SetupEvent) : bool :=
  match ev with
  | LoopExit _ => true
  | _ => false
  end.

(** What set-up imports: the device manager, the transport, the client
    class and the translation function [_]. *)
Class SetupHost := {
  Transport : Type;
  Handler : Type;
  Client : Type;
  (** [self.transport_handler.get_transport(path)] *)
  get_transport : string → outcome (option Transport);
  (** [self.client_class(transport, handler, self)] *)
  client_class : Transport → option Handler → Client;
  (** [client.ping('t')] *)
  ping : Client → outcome unit;
  (** [client.atleast_version(major, minor, patch)] *)
  atleast_version : Client → Z → Z → Z → bool;
  (** the formatted "outdated firmware" message for a client *)
  outdated_firmware_msg : Client → string;
  (** [devmgr.client_by_id(device_id)] *)
  client_by_id : string → option Client;
  (** how the device answers a command: [None] when the call returns *)
  device_answer : Client → SetupEvent → option raised;
  (** [repr(e)] *)
  repr : raised → string;
  (** the translation function [_] *)
  tr : string → string;
}.


Definition recover_warning : string :=
  "You will be asked to enter 24 words regardless of your seed's actual length.  If you enter a word incorrectly or misspell it, you cannot change it or go back - you will need to start again from the beginning.

So please enter the words carefully!".

Section setup.
Context `{SetupHost}.


(** A call of a device command: it is logged, and raises what the device
    answers. *)
Definition device_call (client : Client) (ev : SetupEvent)
    (log : list SetupEvent) : outcome unit * list SetupEvent :=
  match device_answer client ev with
  | None => (Done tt, ev :: log)
  | Some e => (Raised e, ev :: log)
  end.

Definition _initialize_device (settings : pyval * pyval * pyval * pyval)
    (method : Z) (device_id : string) (log : list SetupEvent)
    : outcome unit * list SetupEvent :=
  let '(item, label, pin_protection, passphrase_protection) := settings in
  let log :=
    if decide (method = TIM_RECOVER)
    then ShowError (tr recover_warning) (Some true) :: log
    else log in
  let language := "english" in
  match client_by_id device_id with
  | None => (Raised (PlainException (tr "The device was disconnected.")), log)
  | Some client =>
      if decide (method = TIM_NEW) then
        match py_add_int item 2 with
        | Raised e => (Raised e, log)
        | Done n =>
            let strength := 64 * n in
            let u2f_counter := 0 in
            let skip_backup := false in
            device_call client
              (ResetDevice true strength passphrase_protection pin_protection
                 label language u2f_counter skip_backup) log
        end
      else if decide (method = TIM_RECOVER) then
        match py_add_int item 2 with
        | Raised e => (Raised e, log)
        | Done n =>
            let word_count := 6 * n in
            device_call client
              (RecoveryDevice word_count passphrase_protection pin_protection
                 label language) (SetStep 0 :: log)
        end
      else if decide (method = TIM_MNEMONIC) then
        let pin := pin_protection in
        device_call client
          (LoadDeviceByMnemonic (py_str item) pin passphrase_protection label
             language) log
      else
        let pin := pin_protection in
        device_call client
          (LoadDeviceByXprv item pin passphrase_protection label language) log
  end.

(** [_initialize_device_safe]: returns nothing; the log is its effect. *)
Definition _initialize_device_safe (settings : pyval * pyval * pyval * pyval)
    (method : Z) (device_id : string) (log : list SetupEvent)
    : list SetupEvent :=
  let exit_code := 0 in
  let '(r, log) := _initialize_device settings method device_id log in
  match r with
  | Done _ => LoopExit exit_code :: log
  | Raised UserCancelled =>
      let exit_code := 1 in
      LoopExit exit_code :: log
  | Raised e =>
      let exit_code := 1 in
      LoopExit exit_code :: ShowError (repr e) None :: LogException :: log
  end.

End setup.

(** A device manager to run set-up on: a transport is the firmware version
    of the device behind it, and so is a client. *)
Module SampleSetup.

Definition version_at_least (v : Z * Z * Z) (major minor patch : Z) : bool :=
  let '(a, b, c) := v in
  (major <? a)%Z
  || ((major =? a)%Z && ((minor <? b)%Z
                         || ((minor =? b)%Z && (patch <=? c)%Z))).

Global Instance host : SetupHost := {|
  Transport := Z * Z * Z;
  Handler := unit;
  Client := Z * Z * Z;
  get_transport := fun path =>
    if decide (path = "current") then Done (Some (1, 0, 5))
    else if decide (path = "old") then Done (Some (1, 0, 4))
    else if decide (path = "") then Done None
    else Raised (DeviceFailure "cannot open");
  client_class := fun transport _ => transport;
  ping := fun _ => Done tt;
  atleast_version := version_at_least;
  outdated_firmware_msg := fun _ => "Outdated firmware";
  client_by_id := fun device_id =>
    if decide (device_id = "dev0") then Some (1, 0, 5) else None;
  device_answer := fun _ ev =>
    match ev with
    | LoadDeviceByXprv _ _ _ _ _ => Some UserCancelled
    | _ => None
    end;
  repr := fun e =>
    match e with
    | UserCancelled => "UserCancelled()"
    | TypeError => "TypeError()"
    | PlainException msg => "Exception('" +:+ msg +:+ "')"
    | UserFacing msg => "UserFacingException('" +:+ msg +:+ "')"
    | DeviceFailure what => what
    end;
  tr := fun text => text;
|}.

Definition settings (item : pyval) : pyval * pyval * pyval * pyval :=
  (item, PStr "my device", PBool true, PBool false).


End SampleSetup.

(** ** Lemmas on the error result *)
Section result_lemmas.
Context {A B : Type} (f : A → result B).

Lemma bind_Ok_inv {C D} (r : result C) (g : C → result D) d :
  r ≫= g = Ok d → ∃ c, r = Ok c ∧ g c = Ok d.
Proof. destruct r as [c|e]; simpl; [eauto | discriminate]. Qed.

Lemma mapM_cons x l :
  mapM f (x :: l) = y ← f x; k ← mapM f l; mret (y :: k).
Proof. reflexivity. Qed.

Lemma mapM_Ok_cons_inv x l ys :
  mapM f (x :: l) = Ok ys →
  ∃ y ys', ys = y :: ys' ∧ f x = Ok y ∧ mapM f l = Ok ys'.
Proof.
  rewrite mapM_cons. intros Hb.
  apply bind_Ok_inv in Hb as (y & Hy & Hb).
  apply bind_Ok_inv in Hb as (ys' & Hys' & Hb).
  injection Hb as <-. eauto.
Qed.

Lemma mapM_Ok_Forall2 l ys :
  mapM f l = Ok ys ↔ Forall2 (λ x y, f x = Ok y) l ys.
Proof.
  split.
  - revert ys. induction l as [|x l IH]; intros ys Hm.
    + injection Hm as <-. constructor.
    + apply mapM_Ok_cons_inv in Hm as (y & ys' & -> & Hy & Hm).
      constructor; auto.
  - induction 1 as [|x y l ys Hy _ IH]; [reflexivity|].
    rewrite mapM_cons, Hy. simpl. rewrite IH. reflexivity.
Qed.

Lemma mapM_Ok_length l ys : mapM f l = Ok ys → length ys = length l.
Proof.
  intros Hm. apply mapM_Ok_Forall2 in Hm.
  symmetry. eapply Forall2_length, Hm.
Qed.

Lemma mapM_Ok_lookup l ys i x :
  mapM f l = Ok ys → l !! i = Some x → ∃ y, ys !! i = Some y ∧ f x = Ok y.
Proof.
  intros Hm Hx. apply mapM_Ok_Forall2 in Hm.
  destruct (Forall2_lookup_l _ _ _ _ _ Hm Hx) as (y & Hy & Hf). eauto.
Qed.

Lemma mapM_all_Ok l :
  Forall (λ x, is_Ok (f x) = true) l → ∃ ys, mapM f l = Ok ys.
Proof.
  induction 1 as [|x l Hx _ [ys IH]]; [by exists []|].
  destruct (f x) as [y|e] eqn:Hy; [|discriminate].
  exists (y :: ys). rewrite mapM_cons, Hy. simpl. by rewrite IH.
Qed.

Lemma mapM_Permutation l1 l2 ys1 :
  l1 ≡ₚ l2 → mapM f l1 = Ok ys1 →
  ∃ ys2, mapM f l2 = Ok ys2 ∧ ys1 ≡ₚ ys2.
Proof.
  intros Hp. revert ys1.
  induction Hp as [|x l1 l2 _ IH|x y l|l1 l2 l3 _ IH1 _ IH2]; intros ys1 Hm.
  - injection Hm as <-. by exists [].
  - apply mapM_Ok_cons_inv in Hm as (y & ys' & -> & Hy & Hm).
    destruct (IH _ Hm) as (ys2 & Hm2 & Hp2).
    exists (y :: ys2). split; [|by constructor].
    rewrite mapM_cons, Hy. simpl. by rewrite Hm2.
  - apply mapM_Ok_cons_inv in Hm as (b1 & ys' & -> & Hb1 & Hm).
    apply mapM_Ok_cons_inv in Hm as (b2 & ys'' & -> & Hb2 & Hm).
    exists (b2 :: b1 :: ys''). split; [|by constructor].
    rewrite !mapM_cons, Hb2, Hb1. simpl. by rewrite Hm.
  - destruct (IH1 _ Hm) as (ys2 & Hm2 & Hp2).
    destruct (IH2 _ Hm2) as (ys3 & Hm3 & Hp3).
    exists ys3. split; [done|]. by etrans.
Qed.

Lemma mapM_Permutation_Raise l1 l2 e :
  l1 ≡ₚ l2 → mapM f l1 = Raise e → ∃ e', mapM f l2 = Raise e'.
Proof.
  intros Hp Hm. destruct (mapM f l2) as [ys2|e'] eqn:Hm2; [|eauto].
  destruct (mapM_Permutation l2 l1 ys2) as (ys1 & Hm1 & _);
    [done|done|congruence].
Qed.
End result_lemmas.

(** ** The order [sorted] uses *)
Global Instance pair_le_total : Total pair_le.
Proof.
  intros [a1 b1] [a2 b2]. unfold pair_le. simpl.
  destruct (decide (a1 = a2)) as [->|Hne].
  - rewrite decide_True by done. apply (total String.le).
  - rewrite decide_False by congruence. apply (total String.le).
Qed.

Global Instance pair_le_antisym : AntiSymm (=) pair_le.
Proof.
  intros [a1 b1] [a2 b2]. unfold pair_le. simpl.
  destruct (decide (a1 = a2)) as [->|Hne].
  - rewrite decide_True by done. intros H1 H2.
    f_equal. by apply (anti_symm String.le).
  - rewrite decide_False by congruence. intros H1 H2.
    destruct Hne. by apply (anti_symm String.le).
Qed.

Global Instance pair_le_trans : Transitive pair_le.
Proof.
  intros [a1 b1] [a2 b2] [a3 b3]. unfold pair_le. simpl.
  destruct (decide (a1 = a2)) as [->|H12].
  - destruct (decide (a2 = a3)) as [->|H23]; [|done].
    intros. by etrans.
  - destruct (decide (a2 = a3)) as [->|H23].
    + rewrite decide_False by done. done.
    + intros H1 H2. destruct (decide (a1 = a3)) as [->|H13].
      * destruct H12. by apply (anti_symm String.le).
      * by etrans.
Qed.

Lemma sorted_Permutation l1 l2 : l1 ≡ₚ l2 → sorted l1 = sorted l2.
Proof.
  intros Hp. unfold sorted.
  apply (Sorted_unique pair_le); [apply Sorted_merge_sort, _ ..|].
  by rewrite !merge_sort_Permutation.
Qed.

(** ** The multisig descriptor builder *)
Section make_multisig.
Context `{Host}.
Import SafeTPlugin.

Local Abbreviation node_paths :=
  (mapM (fun '(xpub, deriv) => _make_node_path xpub deriv)).

Lemma make_multisig_single m xpubs :
  length xpubs = 1%nat → _make_multisig m xpubs = Ok None.
Proof. intros Hl. unfold _make_multisig. by rewrite decide_True. Qed.

Lemma make_multisig_many m xpubs :
  length xpubs ≠ 1%nat →
  _make_multisig m xpubs =
    pubkeys ← node_paths xpubs;
    mret (Some {| ms_pubkeys := pubkeys;
                  ms_signatures := replicate (length pubkeys) [];
                  ms_m := m |}).
Proof. intros Hl. unfold _make_multisig. by rewrite decide_False. Qed.

Lemma make_multisig_Some m xpubs d :
  _make_multisig m xpubs = Ok (Some d) →
  length xpubs ≠ 1%nat ∧ node_paths xpubs = Ok (ms_pubkeys d) ∧
  ms_signatures d = replicate (length xpubs) [] ∧ ms_m d = m.
Proof.
  intros Hd. destruct (decide (length xpubs = 1%nat)) as [Hl|Hl].
  - rewrite make_multisig_single in Hd by done. discriminate.
  - rewrite make_multisig_many in Hd by done.
    apply bind_Ok_inv in Hd as (pks & Hpks & Hd).
    injection Hd as <-. simpl.
    by rewrite (mapM_Ok_length _ _ _ Hpks).
Qed.

Lemma make_multisig_None m xpubs :
  _make_multisig m xpubs = Ok None → length xpubs = 1%nat.
Proof.
  intros Hd. destruct (decide (length xpubs = 1%nat)) as [Hl|Hl]; [done|].
  rewrite make_multisig_many in Hd by done.
  apply bind_Ok_inv in Hd as (pks & _ & Hd). discriminate.
Qed.

Lemma make_node_path_is_Ok xpub deriv :
  is_Ok (_make_node_path xpub deriv) = is_Ok (from_xkey xpub).
Proof. unfold _make_node_path. by destruct (from_xkey xpub). Qed.

Lemma same_cosigners_Permutation m l1 l2 :
  l1 ≡ₚ l2 → same_cosigners (_make_multisig m l1) (_make_multisig m l2).
Proof.
  intros Hp. pose proof (Permutation_length Hp) as Hlen.
  destruct (decide (length l1 = 1%nat)) as [Hl|Hl].
  - rewrite !make_multisig_single by congruence. done.
  - rewrite !make_multisig_many by congruence.
    destruct (node_paths l1) as [ys1|e] eqn:Hm1.
    + destruct (mapM_Permutation _ _ _ _ Hp Hm1) as (ys2 & -> & Hys).
      simpl. by rewrite (Permutation_length Hys).
    + destruct (mapM_Permutation_Raise _ _ _ _ Hp Hm1) as (e' & ->). done.
Qed.

Lemma show_address_multisig_Permutation m xpubs1 pubkeys1 xpubs2 pubkeys2
    deriv_suffix :
  length xpubs1 = length xpubs2 →
  zip pubkeys1 xpubs1 ≡ₚ zip pubkeys2 xpubs2 →
  show_address_multisig m xpubs1 pubkeys1 deriv_suffix =
  show_address_multisig m xpubs2 pubkeys2 deriv_suffix.
Proof.
  intros Hlen Hp. unfold show_address_multisig.
  by rewrite Hlen, (sorted_Permutation _ _ Hp).
Qed.

(** C1 (as the code has it): [_make_multisig] does not sort.  For two
    permutations of the same pairs it gives the same threshold and the
    same empty signature slots, and co-signer sequences that are
    permutations of each other, each in the order of its input list.  The
    ordering by public key is [show_address]'s: it sorts the
    (public key, extended key) pairs before it calls [_make_multisig], so
    its descriptor does not depend on the order of those pairs. *)
Theorem make_multisig_reordering m l1 l2 :
  l1 ≡ₚ l2 →
  same_cosigners (_make_multisig m l1) (_make_multisig m l2) ∧
  (∀ d, _make_multisig m l1 = Ok (Some d) →
        Forall2 (λ p n, _make_node_path p.1 p.2 = Ok n) l1 (ms_pubkeys d)) ∧
  (∀ xpubs1 pubkeys1 xpubs2 pubkeys2 deriv_suffix,
     length xpubs1 = length xpubs2 →
     zip pubkeys1 xpubs1 ≡ₚ zip pubkeys2 xpubs2 →
     show_address_multisig m xpubs1 pubkeys1 deriv_suffix =
     show_address_multisig m xpubs2 pubkeys2 deriv_suffix).
Proof.
  intros Hp. split; [by apply same_cosigners_Permutation|]. split.
  - intros d Hd. apply make_multisig_Some in Hd as (_ & Hm & _).
    apply mapM_Ok_Forall2 in Hm.
    eapply Forall2_impl; [exact Hm|]. by intros [xpub deriv] n.
  - intros. by apply show_address_multisig_Permutation.
Qed.

(** C9: [_make_multisig] returns [None] exactly for a single co-signer;
    otherwise, the extended keys being decodable, it returns a descriptor
    with one co-signer slot per pair, threshold [m] and only empty
    signature placeholders; any descriptor it returns has this shape. *)
Theorem make_multisig_contract m xpubs :
  (_make_multisig m xpubs = Ok None ↔ length xpubs = 1%nat) ∧
  (length xpubs ≠ 1%nat →
   Forall (λ p, is_Ok (from_xkey p.1) = true) xpubs →
   ∃ d, _make_multisig m xpubs = Ok (Some d)) ∧
  (∀ d, _make_multisig m xpubs = Ok (Some d) →
        length (ms_pubkeys d) = length xpubs ∧
        ms_m d = m ∧
        length (ms_signatures d) = length xpubs ∧
        Forall (λ s, s = []) (ms_signatures d)).
Proof.
  split; [split; [apply make_multisig_None|apply make_multisig_single]|].
  split.
  - intros Hl Hok. rewrite make_multisig_many by done.
    destruct (mapM_all_Ok (fun '(xpub, deriv) => _make_node_path xpub deriv)
                xpubs) as [pks ->]; [|by eexists].
    eapply Forall_impl; [exact Hok|].
    intros [xpub deriv] Hx. by rewrite make_node_path_is_Ok.
  - intros d Hd. apply make_multisig_Some in Hd as (_ & Hm & Hs & Hmm).
    rewrite Hs, length_replicate, (mapM_Ok_length _ _ _ Hm).
    repeat split; [done|]. by apply Forall_replicate.
Qed.
End make_multisig.

(** ** Translation of the inputs *)
Section inputs.
Context `{Host}.
Import SafeTPlugin.

Lemma tx_input_coinbase tx for_sig keystore txin :
  is_coinbase_input txin = true →
  tx_input tx for_sig keystore txin =
    Ok {| ti_address_n := [];
          ti_prev_hash := Some (replicate 32 Byte.x00);
          ti_prev_index := Some 0xffffffff;
          ti_script_sig := script_sig txin;
          ti_sequence := Some (nsequence txin);
          ti_script_type := None;
          ti_multisig := None;
          ti_amount := value_sats txin |}.
Proof.
  intros Hc. unfold tx_input. rewrite Hc. simpl.
  by destruct (script_sig txin), (value_sats txin).
Qed.

Lemma tx_input_reference tx keystore txin :
  is_coinbase_input txin = false →
  tx_input tx false keystore txin =
    Ok {| ti_address_n := [];
          ti_prev_hash := Some (txid (prevout txin));
          ti_prev_index := Some (out_idx (prevout txin));
          ti_script_sig := script_sig txin;
          ti_sequence := Some (nsequence txin);
          ti_script_type := None;
          ti_multisig := None;
          ti_amount := value_sats txin |}.
Proof.
  intros Hc. unfold tx_input. rewrite Hc. simpl.
  by destruct (script_sig txin), (value_sats txin).
Qed.

(** What the [for_sig] branch can return, and why it can fail. *)
Lemma tx_input_for_sig_Ok tx keystore txin t :
  tx_input_for_sig tx keystore txin = Ok t →
  ∃ p ks ms st,
    is_partial tx = true ∧ txin_partial txin = Some p ∧
    keystore = Some ks ∧
    multisig_of tx (of_txin txin) p = Ok ms ∧
    get_safet_input_script_type (script_type p) = Ok st ∧
    t = {| ti_address_n :=
             let full_path :=
               (find_my_pubkey_in_txinout ks (of_txin txin)).2 in
             if truthy_list full_path then default [] full_path else [];
           ti_prev_hash := None; ti_prev_index := None;
           ti_script_sig := None; ti_sequence := None;
           ti_script_type := Some st; ti_multisig := ms;
           ti_amount := None |}.
Proof.
  unfold tx_input_for_sig. intros Ht.
  destruct (is_partial tx); [|discriminate]. simpl in Ht.
  destruct (txin_partial txin) as [p|]; [|discriminate]. simpl in Ht.
  destruct keystore as [ks|]; [|discriminate]. simpl in Ht.
  destruct (multisig_of tx (of_txin txin) p) as [ms|] eqn:Hms;
    [|discriminate].
  simpl in Ht.
  destruct (get_safet_input_script_type (script_type p)) as [st|] eqn:Hst;
    [|discriminate].
  simpl in Ht.
  exists p, ks, ms, st.
  destruct (find_my_pubkey_in_txinout ks (of_txin txin)) as [pk path].
  injection Ht as <-. done.
Qed.

Lemma tx_input_for_sig_Raise tx ks txin e :
  tx_input_for_sig tx (Some ks) txin = Raise e →
  is_partial tx = false ∨ txin_partial txin = None ∨
  ∃ p, txin_partial txin = Some p ∧
       (multisig_of tx (of_txin txin) p = Raise e ∨
        get_safet_input_script_type (script_type p) = Raise e).
Proof.
  unfold tx_input_for_sig. intros Ht.
  destruct (is_partial tx); [|by left]. simpl in Ht.
  destruct (txin_partial txin) as [p|]; [|by right; left]. simpl in Ht.
  right; right. exists p. split; [done|].
  destruct (multisig_of tx (of_txin txin) p) as [ms|e1]; simpl in Ht;
    [|left; congruence].
  destruct (get_safet_input_script_type (script_type p)) as [st|e2];
    simpl in Ht; [|right; congruence].
  by destruct (find_my_pubkey_in_txinout ks (of_txin txin)).
Qed.

Lemma tx_input_strip tx keystore keystore' txin r :
  tx_input tx true keystore txin = Ok r →
  tx_input tx false keystore' txin = Ok (strip_active_signing_fields r).
Proof.
  destruct (is_coinbase_input txin) eqn:Hc.
  - rewrite !tx_input_coinbase by done. by intros [= <-].
  - rewrite tx_input_reference by done.
    unfold tx_input. rewrite Hc. simpl.
    destruct (tx_input_for_sig tx keystore txin) as [t|e] eqn:Ht;
      [|discriminate].
    apply tx_input_for_sig_Ok in Ht
      as (p & ks & ms & st & _ & _ & _ & _ & _ & ->).
    simpl. intros [= <-]. unfold strip_active_signing_fields. simpl.
    by destruct (script_sig txin), (value_sats txin).
Qed.

Lemma tx_inputs_strip tx keystore keystore' reqs :
  tx_inputs tx true keystore = Ok reqs →
  tx_inputs tx false keystore' = Ok (map strip_active_signing_fields reqs).
Proof.
  unfold tx_inputs. intros Hm.
  apply mapM_Ok_Forall2 in Hm. apply mapM_Ok_Forall2.
  apply Forall2_fmap_r.
  eapply Forall2_impl; [exact Hm|].
  intros txin r. apply tx_input_strip.
Qed.

(** Reference mode never fails. *)
Lemma tx_inputs_reference_total tx keystore :
  ∃ reqs, tx_inputs tx false keystore = Ok reqs.
Proof.
  apply mapM_all_Ok, Forall_forall. intros txin _.
  destruct (is_coinbase_input txin) eqn:Hc.
  - by rewrite tx_input_coinbase.
  - by rewrite tx_input_reference.
Qed.

(** C3 (as the code has it): when the keystore finds no full path for an
    input translated for active signing, no error is raised for it: the
    request is built without a derivation path, with its script type and
    multisig descriptor.  Translation of the input can only fail because
    the transaction or the input is not a partial one, or in building the
    multisig descriptor, or on the script type. *)
Theorem input_without_path tx ks txin :
  is_coinbase_input txin = false →
  truthy_list (find_my_pubkey_in_txinout ks (of_txin txin)).2 = false →
  (∀ p ms st,
     is_partial tx = true → txin_partial txin = Some p →
     multisig_of tx (of_txin txin) p = Ok ms →
     get_safet_input_script_type (script_type p) = Ok st →
     ∃ r, tx_input tx true (Some ks) txin = Ok r ∧
          ti_address_n r = [] ∧ ti_script_type r = Some st ∧
          ti_multisig r = ms) ∧
  (∀ r, tx_input tx true (Some ks) txin = Ok r → ti_address_n r = []) ∧
  (∀ e, tx_input tx true (Some ks) txin = Raise e →
     is_partial tx = false ∨ txin_partial txin = None ∨
     ∃ p, txin_partial txin = Some p ∧
          (multisig_of tx (of_txin txin) p = Raise e ∨
           get_safet_input_script_type (script_type p) = Raise e)).
Proof.
  intros Hc Hpath. split; [|split].
  - intros p ms st Hpart Hp Hms Hst.
    unfold tx_input, tx_input_for_sig.
    rewrite Hc, Hpart, Hp. simpl. rewrite Hms. simpl. rewrite Hst. simpl.
    destruct (find_my_pubkey_in_txinout ks (of_txin txin)) as [pk path].
    simpl in Hpath. rewrite Hpath. simpl. eauto.
  - intros r. unfold tx_input. rewrite Hc. simpl.
    destruct (tx_input_for_sig tx (Some ks) txin) as [t|e] eqn:Ht;
      [|discriminate].
    apply tx_input_for_sig_Ok in Ht
      as (p & ks' & ms & st & _ & _ & [= <-] & _ & _ & ->).
    simpl. intros [= <-]. simpl. by rewrite Hpath.
  - intros e. unfold tx_input. rewrite Hc. simpl.
    destruct (tx_input_for_sig tx (Some ks) txin) as [t|e'] eqn:Ht;
      [discriminate|].
    simpl. intros [= <-]. by apply (tx_input_for_sig_Raise tx ks txin).
Qed.

(** C4: a coinbase input is translated, in both modes, to the sentinel
    previous output (32 zero bytes, index 0xffffffff) with no derivation
    path, no multisig descriptor and no script type; its translation
    never fails. *)
Theorem coinbase_input_sentinel tx for_sig keystore txin :
  is_coinbase_input txin = true →
  (∃ r, tx_input tx for_sig keystore txin = Ok r ∧ is_coinbase_sentinel r) ∧
  (∀ reqs i,
     tx_inputs tx for_sig keystore = Ok reqs →
     inputs tx !! i = Some txin →
     ∃ r, reqs !! i = Some r ∧ is_coinbase_sentinel r).
Proof.
  intros Hc. split.
  - rewrite tx_input_coinbase by done. eexists. split; [done|].
    by repeat split.
  - intros reqs i Hm Hi.
    destruct (mapM_Ok_lookup _ _ _ _ _ Hm Hi) as (r & Hr & Hf).
    rewrite tx_input_coinbase in Hf by done. injection Hf as <-.
    eexists. split; [exact Hr|]. by repeat split.
Qed.

(** C5: when translation for active signing returns its requests,
    stripping the derivation path, the multisig descriptor and the script
    type from them gives exactly the requests of reference mode, which are
    the inputs [electrum_tx_to_txtype] reports for the transaction. *)
Theorem strip_active_is_reference tx keystore reqs :
  tx_inputs tx true keystore = Ok reqs →
  (∀ keystore',
     tx_inputs tx false keystore' =
       Ok (map strip_active_signing_fields reqs)) ∧
  (deserialize tx = Ok tx →
   ∃ t, electrum_tx_to_txtype (Some tx) = Ok t ∧
        tt_inputs t = map strip_active_signing_fields reqs).
Proof.
  intros Hm. split.
  - intros keystore'. by eapply tx_inputs_strip.
  - intros Hd. unfold electrum_tx_to_txtype. rewrite Hd. simpl.
    rewrite (tx_inputs_strip _ _ None _ Hm). simpl. eauto.
Qed.
End inputs.

(** ** Translation of the outputs *)
Section outputs.
Context `{Host}.
Import SafeTPlugin.

Lemma create_output_by_address_path txout o :
  create_output_by_address txout = Ok o → emitted_by_derivation o = false.
Proof.
  unfold create_output_by_address.
  destruct (truthy_str (address txout)).
  - by intros [= <-].
  - destruct (trezor_validate_op_return_output_and_get_data txout);
      [|discriminate].
    by intros [= <-].
Qed.

Lemma create_output_by_derivation_path tx keystore txout o :
  create_output_by_derivation tx keystore txout = Ok o →
  emitted_by_derivation o = true ∧ to_address o = None.
Proof.
  unfold create_output_by_derivation.
  destruct (get_safet_output_script_type _); [|discriminate]. simpl.
  destruct (multisig_of _ _ _); [|discriminate]. simpl.
  destruct (find_my_pubkey_in_txinout _ _) as [pk [[|n path]|]];
    simpl; try discriminate.
  by intros [= <-].
Qed.

Lemma use_create_by_derivation_has_change any txout :
  use_create_by_derivation any true txout = false.
Proof. unfold use_create_by_derivation. by rewrite andb_false_r. Qed.

Lemma use_create_by_derivation_true any has_change txout :
  use_create_by_derivation any has_change txout = true →
  is_mine txout = true ∧ has_change = false ∧ is_change txout = any.
Proof.
  unfold use_create_by_derivation.
  destruct (is_mine txout), has_change; simpl; try discriminate.
  by destruct (decide (is_change txout = any)).
Qed.

Lemma tx_outputs_loop_cons tx keystore any has_change txout rest :
  tx_outputs_loop tx keystore any has_change (txout :: rest) =
    txoutputtype ←
      (if use_create_by_derivation any has_change txout
       then create_output_by_derivation tx keystore txout
       else create_output_by_address txout);
    outputs ← tx_outputs_loop tx keystore any
                (if use_create_by_derivation any has_change txout then true
                 else has_change) rest;
    mret (txoutputtype :: outputs).
Proof. reflexivity. Qed.

Lemma tx_outputs_loop_cons_inv tx keystore any has_change txout rest outs :
  tx_outputs_loop tx keystore any has_change (txout :: rest) = Ok outs →
  ∃ o outs',
    outs = o :: outs' ∧
    (if use_create_by_derivation any has_change txout
     then create_output_by_derivation tx keystore txout
     else create_output_by_address txout) = Ok o ∧
    tx_outputs_loop tx keystore any
      (if use_create_by_derivation any has_change txout then true
       else has_change) rest = Ok outs'.
Proof.
  simpl. intros Hb.
  apply bind_Ok_inv in Hb as (o & Ho & Hb).
  apply bind_Ok_inv in Hb as (outs' & Houts' & Hb).
  injection Hb as <-. eauto.
Qed.

(** Once [has_change] is set, nothing more is emitted by derivation. *)
Lemma tx_outputs_loop_has_change tx keystore any txouts outs :
  tx_outputs_loop tx keystore any true txouts = Ok outs →
  List.filter emitted_by_derivation outs = [].
Proof.
  revert outs. induction txouts as [|txout rest IH]; intros outs Hl.
  - by injection Hl as <-.
  - apply tx_outputs_loop_cons_inv in Hl as (o & outs' & -> & Ho & Hl).
    rewrite use_create_by_derivation_has_change in Ho, Hl.
    simpl. rewrite (create_output_by_address_path _ _ Ho). by apply IH.
Qed.

Lemma tx_outputs_loop_at_most_one tx keystore any has_change txouts outs :
  tx_outputs_loop tx keystore any has_change txouts = Ok outs →
  (length (List.filter emitted_by_derivation outs) ≤ 1)%nat.
Proof.
  revert has_change outs.
  induction txouts as [|txout rest IH]; intros has_change outs Hl.
  - injection Hl as <-. simpl. lia.
  - apply tx_outputs_loop_cons_inv in Hl as (o & outs' & -> & Ho & Hl).
    destruct (use_create_by_derivation any has_change txout).
    + apply tx_outputs_loop_has_change in Hl.
      simpl. destruct (emitted_by_derivation o); simpl; rewrite Hl; simpl; lia.
    + simpl. rewrite (create_output_by_address_path _ _ Ho). by eapply IH.
Qed.

Lemma tx_outputs_loop_no_match tx keystore any has_change txouts outs :
  (∀ txout, txout ∈ txouts → is_mine txout = true → is_change txout ≠ any) →
  tx_outputs_loop tx keystore any has_change txouts = Ok outs →
  List.filter emitted_by_derivation outs = [].
Proof.
  revert has_change outs.
  induction txouts as [|txout rest IH]; intros has_change outs Hno Hl.
  - by injection Hl as <-.
  - apply tx_outputs_loop_cons_inv in Hl as (o & outs' & -> & Ho & Hl).
    destruct (use_create_by_derivation any has_change txout) eqn:Huse.
    + apply use_create_by_derivation_true in Huse as (Hmine & _ & Hch).
      destruct (Hno txout); [left|done|done].
    + simpl. rewrite (create_output_by_address_path _ _ Ho).
      eapply IH; [|exact Hl]. intros txout' Hin. apply Hno. by right.
Qed.

(** C2: of the outputs [tx_outputs] returns, at most one is emitted by
    derivation; and none is when no output of the wallet has the change
    flag of the transaction's change-branch classification. *)
Theorem at_most_one_by_derivation tx keystore outs :
  tx_outputs tx keystore = Ok outs →
  (length (List.filter emitted_by_derivation outs) ≤ 1)%nat ∧
  ((∀ txout, txout ∈ outputs tx → is_mine txout = true →
             is_change txout ≠ is_any_tx_output_on_change_branch tx) →
   List.filter emitted_by_derivation outs = []).
Proof.
  unfold tx_outputs. intros Hl. split.
  - by eapply tx_outputs_loop_at_most_one.
  - intros Hno. by eapply tx_outputs_loop_no_match.
Qed.

Lemma create_output_by_address_null txout e :
  is_null_output txout = true →
  trezor_validate_op_return_output_and_get_data txout = Raise e →
  create_output_by_address txout = Raise e.
Proof.
  unfold is_null_output, create_output_by_address.
  intros [Ha _]%andb_prop Hv. apply negb_true_iff in Ha.
  by rewrite Ha, Hv.
Qed.

(** The loop stops at a null output that fails validation, if it gets
    there. *)
Lemma tx_outputs_loop_null tx keystore any has_change pre txout post e :
  is_null_output txout = true →
  trezor_validate_op_return_output_and_get_data txout = Raise e →
  tx_outputs_loop tx keystore any has_change (pre ++ txout :: post) =
    match tx_outputs_loop tx keystore any has_change pre with
    | Ok _ => Raise e
    | Raise e' => Raise e'
    end.
Proof.
  intros Hnull Hv. revert has_change.
  induction pre as [|txout' pre IH]; intros has_change.
  - rewrite app_nil_l, tx_outputs_loop_cons.
    assert (use_create_by_derivation any has_change txout = false) as ->.
    { unfold use_create_by_derivation, is_null_output in *.
      apply andb_prop in Hnull as [_ Hm]. apply negb_true_iff in Hm.
      by rewrite Hm. }
    by rewrite (create_output_by_address_null _ _ Hnull Hv).
  - rewrite <- app_comm_cons, !tx_outputs_loop_cons.
    destruct (use_create_by_derivation any has_change txout').
    + destruct (create_output_by_derivation tx keystore txout'); [|done].
      simpl. rewrite IH. by destruct (tx_outputs_loop _ _ _ _ pre).
    + destruct (create_output_by_address txout'); [|done].
      simpl. rewrite IH. by destruct (tx_outputs_loop _ _ _ _ pre).
Qed.

(** C8: for a transaction with a null output whose payload the validator
    rejects, [tx_outputs] returns no output list; the validator's error is
    what it raises when the outputs before the null output translate, and
    the outputs after it play no part. *)
Theorem null_output_rejected tx keystore pre txout post e :
  outputs tx = (pre ++ txout :: post)%list →
  is_null_output txout = true →
  trezor_validate_op_return_output_and_get_data txout = Raise e →
  (∃ e', tx_outputs tx keystore = Raise e') ∧
  (is_Ok (tx_outputs_loop tx keystore
            (is_any_tx_output_on_change_branch tx) false pre) = true →
   tx_outputs tx keystore = Raise e) ∧
  (∀ post',
     tx_outputs_loop tx keystore (is_any_tx_output_on_change_branch tx)
       false (pre ++ txout :: post') =
     tx_outputs tx keystore).
Proof.
  intros Houts Hnull Hv. unfold tx_outputs. rewrite Houts.
  rewrite !(tx_outputs_loop_null _ _ _ _ _ _ _ _ Hnull Hv).
  split; [|split].
  - destruct (tx_outputs_loop _ _ _ _ pre); eauto.
  - by destruct (tx_outputs_loop _ _ _ _ pre).
  - intros post'. by rewrite (tx_outputs_loop_null _ _ _ _ _ _ _ _ Hnull Hv).
Qed.
End outputs.

(** ** The signing session *)
Lemma byte_hex_append b s :
  byte_hex b +:+ s =
    String (hex_digit (Byte.to_N b / 16))
      (String (hex_digit (Byte.to_N b mod 16)) s).
Proof. reflexivity. Qed.

Lemma bytes_hex_app (a b : bytes) :
  bytes_hex (a ++ b)%list = bytes_hex a +:+ bytes_hex b.
Proof.
  induction a as [|x a IH]; [reflexivity|].
  simpl bytes_hex. rewrite !byte_hex_append, IH. reflexivity.
Qed.

Lemma bytes_hex_sighash (x : bytes) :
  bytes_hex (x ++ [Byte.x01])%list = bytes_hex x +:+ "01".
Proof. by rewrite bytes_hex_app. Qed.

Section session.
Context `{Host}.

Lemma requests_missing_lookup prev_tx d h :
  requests_missing prev_tx d h → prev_tx !! h = None.
Proof. induction 1; auto. Qed.

Lemma run_sign_tx_missing prev_tx d h :
  requests_missing prev_tx d h →
  run_sign_tx (SafeTPlugin.get_tx prev_tx) d = Raise (KeyError h).
Proof.
  induction 1 as [h k Hh|h' k t h Ht _ IH]; simpl.
  - unfold SafeTPlugin.get_tx. by rewrite Hh.
  - by rewrite Ht.
Qed.

(** [sign_transaction] once the client is there and the transaction is
    translated. *)
Lemma sign_transaction_translated keystore prev_tx w client ins outs :
  get_client keystore = Ok (Some client) →
  SafeTPlugin.tx_inputs (wallet_tx w) true (Some keystore) = Ok ins →
  SafeTPlugin.tx_outputs (wallet_tx w) keystore = Ok outs →
  SafeTPlugin.sign_transaction keystore prev_tx w =
    let w1 := at_sign_tx w prev_tx ins outs in
    match run_sign_tx (SafeTPlugin.get_tx prev_tx)
            (sign_tx client SafeTPlugin.get_coin_name ins outs
               (locktime (wallet_tx w)) (version (wallet_tx w))) with
    | Ok reply =>
        match update_signatures (wallet_tx w)
                (map (fun x => bh2u x +:+ "01") reply.1) with
        | Ok tx' =>
            (Ok tt, {| plugin_prev_tx := prev_tx; wallet_tx := tx';
                       device_log := device_log w1 |})
        | Raise e => (Raise e, w1)
        end
    | Raise e => (Raise e, w1)
    end.
Proof.
  intros Hc Hi Ho.
  unfold SafeTPlugin.sign_transaction, sbind, read_tx, set_prev_tx,
    call_device, lift, write_tx.
  simpl. rewrite Hc, Hi, Ho. simpl.
  destruct (run_sign_tx _ _) as [reply|e]; [|done].
  by destruct (update_signatures _ _).
Qed.

(** A failed session leaves the transaction as it was. *)
Lemma sign_transaction_Raise_frame keystore prev_tx w e w' :
  SafeTPlugin.sign_transaction keystore prev_tx w = (Raise e, w') →
  wallet_tx w' = wallet_tx w.
Proof.
  unfold SafeTPlugin.sign_transaction, sbind, read_tx, set_prev_tx,
    call_device, lift, write_tx.
  simpl.
  destruct (get_client keystore) as [client|];
    [|by intros [= _ <-]].
  destruct (SafeTPlugin.tx_inputs _ _ _); [|by intros [= _ <-]].
  destruct (SafeTPlugin.tx_outputs _ _); [|by intros [= _ <-]].
  destruct client as [client|]; [|by intros [= _ <-]].
  destruct (run_sign_tx _ _); [|by intros [= _ <-]].
  destruct (update_signatures _ _); [discriminate|by intros [= _ <-]].
Qed.

Lemma keystore_sign_transaction_incomplete keystore w prev_tx :
  is_complete (wallet_tx w) = false →
  SafeTKeyStore.collect_prev_tx ∅ (inputs (wallet_tx w)) = Ok prev_tx →
  SafeTKeyStore.sign_transaction keystore w =
    SafeTPlugin.sign_transaction keystore prev_tx w.
Proof.
  intros Hc Hp. unfold SafeTKeyStore.sign_transaction, sbind, read_tx, lift.
  by rewrite Hc, Hp.
Qed.

(** C6: when the device returns its signatures, one per input, the
    plugin hands [update_signatures] exactly these signatures, in the same
    order, each in hex with "01" appended (the hex of the signature
    followed by the byte 0x01), and the wallet's transaction becomes what
    [update_signatures] returns. *)
Theorem signatures_get_sighash_suffix keystore prev_tx w client ins outs
    sigs ser :
  get_client keystore = Ok (Some client) →
  SafeTPlugin.tx_inputs (wallet_tx w) true (Some keystore) = Ok ins →
  SafeTPlugin.tx_outputs (wallet_tx w) keystore = Ok outs →
  run_sign_tx (SafeTPlugin.get_tx prev_tx)
    (sign_tx client SafeTPlugin.get_coin_name ins outs
       (locktime (wallet_tx w)) (version (wallet_tx w))) = Ok (sigs, ser) →
  length sigs = length (inputs (wallet_tx w)) →
  let signatures := map (fun x => bh2u x +:+ "01") sigs in
  length signatures = length (inputs (wallet_tx w)) ∧
  (∀ i x, sigs !! i = Some x → signatures !! i = Some (bh2u x +:+ "01")) ∧
  ((∀ x, bh2u x = bytes_hex x) →
   signatures = map (fun x => bytes_hex (x ++ [Byte.x01])%list) sigs) ∧
  SafeTPlugin.sign_transaction keystore prev_tx w =
    match update_signatures (wallet_tx w) signatures with
    | Ok tx' =>
        (Ok tt, {| plugin_prev_tx := prev_tx; wallet_tx := tx';
                   device_log := device_log (at_sign_tx w prev_tx ins outs) |})
    | Raise e => (Raise e, at_sign_tx w prev_tx ins outs)
    end.
Proof.
  intros Hc Hi Ho Hrun Hlen signatures. subst signatures.
  split; [by rewrite length_map|]. split; [|split].
  - intros i x Hx. by rewrite list_lookup_fmap, Hx.
  - intros Hhex. apply map_ext. intros x.
    by rewrite Hhex, bytes_hex_sighash.
  - rewrite (sign_transaction_translated _ _ _ _ _ _ Hc Hi Ho), Hrun. done.
Qed.

(** C7: when the device asks for a previous transaction that the map does
    not hold, [get_tx] raises [KeyError], the session ends with that error
    and the wallet's transaction is left without signatures, for the
    plugin's [sign_transaction] and for the keystore's, which fills the
    map from the inputs. *)
Theorem missing_previous_transaction keystore prev_tx w client ins outs h :
  get_client keystore = Ok (Some client) →
  SafeTPlugin.tx_inputs (wallet_tx w) true (Some keystore) = Ok ins →
  SafeTPlugin.tx_outputs (wallet_tx w) keystore = Ok outs →
  requests_missing prev_tx
    (sign_tx client SafeTPlugin.get_coin_name ins outs
       (locktime (wallet_tx w)) (version (wallet_tx w))) h →
  SafeTPlugin.get_tx prev_tx h = Raise (KeyError h) ∧
  (∃ w', SafeTPlugin.sign_transaction keystore prev_tx w
           = (Raise (KeyError h), w') ∧
         wallet_tx w' = wallet_tx w) ∧
  (is_complete (wallet_tx w) = false →
   SafeTKeyStore.collect_prev_tx ∅ (inputs (wallet_tx w)) = Ok prev_tx →
   ∃ w', SafeTKeyStore.sign_transaction keystore w
           = (Raise (KeyError h), w') ∧
         wallet_tx w' = wallet_tx w).
Proof.
  intros Hc Hi Ho Hreq.
  assert (SafeTPlugin.sign_transaction keystore prev_tx w =
            (Raise (KeyError h), at_sign_tx w prev_tx ins outs)) as Hs.
  { rewrite (sign_transaction_translated _ _ _ _ _ _ Hc Hi Ho).
    by rewrite (run_sign_tx_missing _ _ _ Hreq). }
  split; [|split].
  - unfold SafeTPlugin.get_tx.
    by rewrite (requests_missing_lookup _ _ _ Hreq).
  - eauto.
  - intros Hcomp Hprev.
    rewrite (keystore_sign_transaction_incomplete _ _ _ Hcomp Hprev). eauto.
Qed.

(** C10: for a complete transaction the keystore's [sign_transaction]
    returns at once: nothing is stored in [prev_tx], the device is not
    called and the transaction is unchanged. *)
Theorem sign_complete_transaction keystore w :
  is_complete (wallet_tx w) = true →
  SafeTKeyStore.sign_transaction keystore w = (Ok tt, w).
Proof.
  intros Hc. unfold SafeTKeyStore.sign_transaction, sbind, read_tx, sret.
  by rewrite Hc.
Qed.
End session.

(** ** The theorems at work on the sample wallet *)
Section examples.
Import Sample.

(** The example of the specification: the coinbase input gives the
    sentinel, the wallet's input its path and no multisig descriptor, the
    change output is emitted by derivation and the payment by address. *)
Example spend_inputs_translated :
  SafeTPlugin.tx_inputs spend true (Some (ks good_device)) = Ok spend_inputs.
Proof. reflexivity. Qed.

Example spend_outputs_translated :
  SafeTPlugin.tx_outputs spend (ks good_device) = Ok spend_outputs.
Proof. reflexivity. Qed.

Example show_address_sorts_by_pubkey :
  SafeTPlugin.show_address_multisig 2 ["xpubA"; "xpubB"] ["03bb"; "02aa"]
    [0; 5] =
  SafeTPlugin._make_multisig 2 [("xpubB", [0; 5]); ("xpubA", [0; 5])].
Proof. reflexivity. Qed.

Lemma reversed_pairs_counterexample :
  [("xpubA", [0; 5]); ("xpubB", [0; 5])]
    ≡ₚ [("xpubB", [0; 5]); ("xpubA", [0; 5])] ∧
  SafeTPlugin._make_multisig 2 [("xpubA", [0; 5]); ("xpubB", [0; 5])]
    ≠ SafeTPlugin._make_multisig 2 [("xpubB", [0; 5]); ("xpubA", [0; 5])].
Proof.
  split; [apply perm_swap|].
  intros Heq. vm_compute in Heq. congruence.
Qed.

Lemma make_multisig_reordering_witness :
  same_cosigners (SafeTPlugin._make_multisig 2 xpub_pairs)
                 (SafeTPlugin._make_multisig 2 (reverse xpub_pairs)) ∧
  SafeTPlugin.show_address_multisig 2 ["xpubA"; "xpubB"] ["03bb"; "02aa"]
    [0; 5] =
  SafeTPlugin.show_address_multisig 2 ["xpubB"; "xpubA"] ["02aa"; "03bb"]
    [0; 5].
Proof.
  pose proof (make_multisig_reordering 2 xpub_pairs (reverse xpub_pairs)
                (perm_swap _ _ _)) as (Hsame & _ & Hshow).
  split; [exact Hsame|].
  apply Hshow; [reflexivity|apply perm_swap].
Defined.

Lemma make_multisig_contract_witness :
  ∃ d, SafeTPlugin._make_multisig 2 xpub_pairs = Ok (Some d).
Proof.
  apply (make_multisig_contract 2 xpub_pairs).
  - simpl. lia.
  - repeat constructor.
Defined.

Lemma at_most_one_by_derivation_witness :
  ∃ outs, SafeTPlugin.tx_outputs spend (ks good_device) = Ok outs ∧
          (length (List.filter emitted_by_derivation outs) ≤ 1)%nat.
Proof.
  eexists. split; [vm_compute; reflexivity|].
  eapply proj1, (at_most_one_by_derivation spend (ks good_device)).
  vm_compute. reflexivity.
Defined.

Lemma pathless_input_counterexample :
  find_my_pubkey_in_txinout (ks good_device) (of_txin pathless_txin)
    = (None, None) ∧
  SafeTPlugin.tx_inputs (tx [pathless_txin] [external_txout]) true
      (Some (ks good_device)) =
    Ok [{| ti_address_n := [];
           ti_prev_hash := Some [Byte.x56; Byte.x78];
           ti_prev_index := Some 0;
           ti_script_sig := None;
           ti_sequence := Some 0xfffffffe;
           ti_script_type := Some SPENDADDRESS;
           ti_multisig := None;
           ti_amount := Some 700 |}].
Proof. split; reflexivity. Qed.

Lemma input_without_path_witness :
  ∃ r, SafeTPlugin.tx_input (tx [pathless_txin] [external_txout]) true
         (Some (ks good_device)) pathless_txin = Ok r ∧
       ti_address_n r = [] ∧ ti_script_type r = Some SPENDADDRESS ∧
       ti_multisig r = None.
Proof.
  eapply (proj1 (input_without_path (tx [pathless_txin] [external_txout])
                   (ks good_device) pathless_txin eq_refl eq_refl));
    reflexivity.
Defined.

Lemma coinbase_input_sentinel_witness :
  ∃ reqs,
    SafeTPlugin.tx_inputs spend true (Some (ks good_device)) = Ok reqs ∧
    ∃ r, reqs !! 0%nat = Some r ∧ is_coinbase_sentinel r.
Proof.
  eexists. split; [vm_compute; reflexivity|].
  eapply (proj2 (coinbase_input_sentinel spend true (Some (ks good_device))
                   coinbase_txin eq_refl));
    [vm_compute|]; reflexivity.
Defined.

Lemma strip_active_is_reference_witness :
  ∃ reqs,
    SafeTPlugin.tx_inputs spend true (Some (ks good_device)) = Ok reqs ∧
    SafeTPlugin.tx_inputs spend false None =
      Ok (map strip_active_signing_fields reqs).
Proof.
  exists spend_inputs. split; [reflexivity|].
  apply (strip_active_is_reference spend (Some (ks good_device)) spend_inputs
           eq_refl).
Defined.

Lemma null_output_rejected_witness :
  SafeTPlugin.tx_outputs
    (tx [owned_txin] [change_txout; bad_null_txout; external_txout])
    (ks good_device) =
  Raise (UserFacingException
           "Only OP_RETURN scripts, with one constant push, are supported.").
Proof.
  apply (null_output_rejected
           (tx [owned_txin] [change_txout; bad_null_txout; external_txout])
           (ks good_device) [change_txout] bad_null_txout [external_txout]);
    reflexivity.
Defined.

Lemma signatures_get_sighash_suffix_witness :
  SafeTPlugin.sign_transaction (ks good_device) spend_prev_tx (world spend)
    = (Ok tt,
       {| plugin_prev_tx := spend_prev_tx;
          wallet_tx := set_complete spend;
          device_log :=
            [CallSignTx "Dash" spend_inputs spend_outputs 0 2;
             CallGetClient] |}) ∧
  map (fun x => bh2u x +:+ "01") [[Byte.x30; Byte.x44]; [Byte.x30; Byte.x44]]
    = ["304401"; "304401"].
Proof.
  destruct (signatures_get_sighash_suffix (ks good_device) spend_prev_tx
              (world spend) good_device spend_inputs spend_outputs
              [[Byte.x30; Byte.x44]; [Byte.x30; Byte.x44]] []
              eq_refl eq_refl eq_refl eq_refl eq_refl)
    as (_ & _ & Hhex & Hsession).
  split; [exact Hsession|].
  rewrite Hhex; reflexivity.
Defined.

Lemma missing_previous_transaction_witness :
  ∃ w', SafeTKeyStore.sign_transaction (ks stray_device) (world spend)
          = (Raise (KeyError "ff"), w') ∧
        wallet_tx w' = spend.
Proof.
  apply (missing_previous_transaction (ks stray_device) spend_prev_tx
           (world spend) stray_device spend_inputs spend_outputs "ff"
           eq_refl eq_refl eq_refl
           (requests_missing_now spend_prev_tx "ff" _ eq_refl));
    reflexivity.
Defined.

Lemma sign_complete_transaction_witness :
  SafeTKeyStore.sign_transaction (ks good_device) (world funding_tx)
    = (Ok tt, world funding_tx).
Proof. apply sign_complete_transaction. reflexivity. Defined.
End examples.

(** ** More on the translation of the inputs *)
Section inputs_more.
Context `{Host}.
Import SafeTPlugin.

(** The request of an input translated for active signing. *)
Lemma tx_input_signing_Ok tx keystore txin r :
  is_coinbase_input txin = false →
  tx_input tx true keystore txin = Ok r →
  ∃ p ks ms st,
    is_partial tx = true ∧ txin_partial txin = Some p ∧ keystore = Some ks ∧
    multisig_of tx (of_txin txin) p = Ok ms ∧
    get_safet_input_script_type (script_type p) = Ok st ∧
    r = {| ti_address_n :=
             let full_path :=
               (find_my_pubkey_in_txinout ks (of_txin txin)).2 in
             if truthy_list full_path then default [] full_path else [];
           ti_prev_hash := Some (txid (prevout txin));
           ti_prev_index := Some (out_idx (prevout txin));
           ti_script_sig := script_sig txin;
           ti_sequence := Some (nsequence txin);
           ti_script_type := Some st;
           ti_multisig := ms;
           ti_amount := value_sats txin |}.
Proof.
  intros Hc. unfold tx_input. rewrite Hc. simpl.
  destruct (tx_input_for_sig tx keystore txin) as [t|e] eqn:Ht;
    [|discriminate].
  apply tx_input_for_sig_Ok in Ht
    as (p & ks & ms & st & Hpart & Hp & Hks & Hms & Hst & ->).
  simpl. intros [= <-]. exists p, ks, ms, st.
  repeat (split; [done|]).
  by destruct (script_sig txin), (value_sats txin).
Qed.

Lemma get_safet_input_script_type_Ok t st :
  get_safet_input_script_type t = Ok st →
  t = "p2pkh" ∧ st = SPENDADDRESS ∨ t = "p2sh" ∧ st = SPENDMULTISIG.
Proof.
  unfold get_safet_input_script_type.
  destruct (decide (t = "p2pkh")); [intros [= <-]; by left|].
  destruct (decide (t = "p2sh")); [intros [= <-]; by right|discriminate].
Qed.

Lemma tx_input_pass_through tx for_sig keystore txin r :
  tx_input tx for_sig keystore txin = Ok r →
  ti_sequence r = Some (nsequence txin) ∧
  ti_amount r = value_sats txin ∧
  ti_script_sig r = script_sig txin ∧
  (is_coinbase_input txin = false →
   ti_prev_hash r = Some (txid (prevout txin)) ∧
   ti_prev_index r = Some (out_idx (prevout txin))).
Proof.
  destruct (is_coinbase_input txin) eqn:Hc.
  - rewrite tx_input_coinbase by done. by intros [= <-].
  - destruct for_sig.
    + intros Hr. apply tx_input_signing_Ok in Hr
        as (p & ks & ms & st & _ & _ & _ & _ & _ & ->); done.
    + rewrite tx_input_reference by done. by intros [= <-].
Qed.

(** X1: [tx_inputs] returns one request per input, in the order of the
    inputs, and each request carries its input's sequence number, amount
    and scriptSig (absent when the input has none) and, unless the input is
    a coinbase input, its previous output. *)
Theorem tx_inputs_pass_through tx for_sig keystore reqs :
  tx_inputs tx for_sig keystore = Ok reqs →
  length reqs = length (inputs tx) ∧
  (∀ i txin, inputs tx !! i = Some txin →
     ∃ r, reqs !! i = Some r ∧
          ti_sequence r = Some (nsequence txin) ∧
          ti_amount r = value_sats txin ∧
          ti_script_sig r = script_sig txin ∧
          (is_coinbase_input txin = false →
           ti_prev_hash r = Some (txid (prevout txin)) ∧
           ti_prev_index r = Some (out_idx (prevout txin)))).
Proof.
  unfold tx_inputs. intros Hm. split; [by eapply mapM_Ok_length|].
  intros i txin Hi.
  destruct (mapM_Ok_lookup _ _ _ _ _ Hm Hi) as (r & Hr & Hf).
  exists r. split; [done|]. by eapply tx_input_pass_through.
Qed.

(** X2: translation in reference mode never fails, whatever the
    transaction and the keystore, and none of its requests carries a
    derivation path, a script type or a multisig descriptor. *)
Theorem tx_inputs_reference_plain tx keystore :
  ∃ reqs,
    tx_inputs tx false keystore = Ok reqs ∧
    Forall (λ r, ti_address_n r = [] ∧ ti_script_type r = None ∧
                 ti_multisig r = None) reqs.
Proof.
  destruct (tx_inputs_reference_total tx keystore) as [reqs Hreqs].
  exists reqs. split; [done|].
  apply mapM_Ok_Forall2 in Hreqs.
  induction Hreqs as [|txin r l rs Hr _ IH]; constructor; [|done].
  destruct (is_coinbase_input txin) eqn:Hc.
  - rewrite tx_input_coinbase in Hr by done. by injection Hr as <-.
  - rewrite tx_input_reference in Hr by done. by injection Hr as <-.
Qed.

Lemma tx_input_for_sig_assert tx keystore txin :
  is_partial tx = false ∨ keystore = None →
  tx_input_for_sig tx keystore txin = Raise AssertionError.
Proof.
  unfold tx_input_for_sig. intros [Hp | ->].
  - by rewrite Hp.
  - destruct (is_partial tx); [|done]. simpl.
    by destruct (txin_partial txin).
Qed.

Lemma tx_input_assert tx keystore txin :
  is_partial tx = false ∨ keystore = None →
  is_coinbase_input txin = false →
  tx_input tx true keystore txin = Raise AssertionError.
Proof.
  intros Hor Hc. unfold tx_input. rewrite Hc. simpl.
  by rewrite tx_input_for_sig_assert.
Qed.

(** X3: translating for active signing a transaction that is not a partial
    transaction, or without a keystore, raises [AssertionError] as soon as
    one input is not a coinbase input; with coinbase inputs only it
    succeeds. *)
Theorem tx_inputs_for_sig_asserts tx keystore :
  is_partial tx = false ∨ keystore = None →
  (Exists (λ txin, is_coinbase_input txin = false) (inputs tx) →
   tx_inputs tx true keystore = Raise AssertionError) ∧
  (Forall (λ txin, is_coinbase_input txin = true) (inputs tx) →
   ∃ reqs, tx_inputs tx true keystore = Ok reqs).
Proof.
  intros Hor. unfold tx_inputs. split.
  - induction 1 as [txin l Hc|txin l _ IH]; rewrite mapM_cons.
    + by rewrite tx_input_assert.
    + destruct (is_coinbase_input txin) eqn:Hc.
      * rewrite tx_input_coinbase by done. simpl. by rewrite IH.
      * by rewrite tx_input_assert.
  - intros Hall. apply mapM_all_Ok.
    eapply Forall_impl; [exact Hall|].
    intros txin Hc. simpl. by rewrite tx_input_coinbase.
Qed.

(** X4: the request of an input translated for active signing has script
    type SPENDADDRESS for a "p2pkh" input and SPENDMULTISIG for a "p2sh"
    input (no other type is translated); it has no multisig descriptor when
    the input has at most one public key, and a descriptor it has was built
    from the input's extended keys with the input's [num_sig] as
    threshold. *)
Theorem tx_input_signing_metadata tx keystore txin r :
  is_coinbase_input txin = false →
  tx_input tx true keystore txin = Ok r →
  ∃ p, txin_partial txin = Some p ∧
    (script_type p = "p2pkh" ∧ ti_script_type r = Some SPENDADDRESS ∨
     script_type p = "p2sh" ∧ ti_script_type r = Some SPENDMULTISIG) ∧
    ((length (pubkeys p) ≤ 1)%nat → ti_multisig r = None) ∧
    (∀ d, ti_multisig r = Some d →
       ∃ xs, get_xpubs_and_der_suffixes_from_txinout tx (of_txin txin) = Ok xs ∧
             length xs ≠ 1%nat ∧ ms_m d = num_sig p ∧
             length (ms_pubkeys d) = length xs).
Proof.
  intros Hc Hr. apply tx_input_signing_Ok in Hr
    as (p & ks & ms & st & _ & Hp & _ & Hms & Hst & ->); [|done].
  exists p. split; [done|]. simpl.
  apply get_safet_input_script_type_Ok in Hst.
  split; [destruct Hst as [[-> ->]|[-> ->]]; [left|right]; done|].
  unfold multisig_of in Hms.
  destruct (decide (1 < length (pubkeys p))%nat) as [Hlen|Hlen].
  - split; [lia|]. intros d ->.
    apply bind_Ok_inv in Hms as (xs & Hxs & Hd).
    exists xs. split; [done|].
    apply make_multisig_Some in Hd as (Hl & Hm & _ & Hmm).
    split; [done|]. split; [done|]. by eapply mapM_Ok_length.
  - injection Hms as <-. split; [done|]. discriminate.
Qed.

(** X5: the derivation path of a request translated for active signing is
    the full path the keystore finds for the input, and it is empty when
    the keystore finds none. *)
Theorem tx_input_signing_path tx ks txin r :
  is_coinbase_input txin = false →
  tx_input tx true (Some ks) txin = Ok r →
  ti_address_n r = default [] (find_my_pubkey_in_txinout ks (of_txin txin)).2.
Proof.
  intros Hc Hr. apply tx_input_signing_Ok in Hr
    as (p & ks' & ms & st & _ & _ & [= <-] & _ & _ & ->); [|done].
  simpl. by destruct (find_my_pubkey_in_txinout ks (of_txin txin)).2
    as [[|n path]|].
Qed.

(** X6: for an input of a partial transaction that is neither "p2pkh" nor
    "p2sh", translation for active signing raises [ValueError] naming the
    type, once its multisig descriptor is built. *)
Theorem tx_input_unexpected_type tx ks txin p ms :
  is_coinbase_input txin = false →
  is_partial tx = true →
  txin_partial txin = Some p →
  multisig_of tx (of_txin txin) p = Ok ms →
  script_type p ≠ "p2pkh" → script_type p ≠ "p2sh" →
  tx_input tx true (Some ks) txin =
    Raise (ValueError ("unexpected txin type: " +:+ script_type p)).
Proof.
  intros Hc Hpart Hp Hms Hn1 Hn2.
  unfold tx_input, tx_input_for_sig.
  rewrite Hc, Hpart, Hp. simpl. rewrite Hms. simpl.
  unfold get_safet_input_script_type.
  by rewrite !decide_False.
Qed.
End inputs_more.

(** ** More on the translation of the outputs *)
Section outputs_more.
Context `{Host}.
Import SafeTPlugin.

Lemma use_create_by_derivation_matches any has_change txout :
  use_create_by_derivation any has_change txout =
    matches_change_branch any txout && negb has_change.
Proof.
  unfold use_create_by_derivation, matches_change_branch.
  destruct (is_mine txout), has_change; simpl;
    rewrite ?andb_false_r, ?andb_true_r; done.
Qed.

Lemma has_change_after any has_change txout :
  (if use_create_by_derivation any has_change txout then true
   else has_change) = has_change || matches_change_branch any txout.
Proof.
  rewrite use_create_by_derivation_matches.
  by destruct (matches_change_branch any txout), has_change.
Qed.

(** How the loop of [tx_outputs] goes through two lists in a row. *)
Lemma tx_outputs_loop_app tx keystore any has_change pre rest :
  tx_outputs_loop tx keystore any has_change (pre ++ rest)%list =
    outs1 ← tx_outputs_loop tx keystore any has_change pre;
    outs2 ← tx_outputs_loop tx keystore any
              (has_change || existsb (matches_change_branch any) pre) rest;
    mret (outs1 ++ outs2)%list.
Proof.
  revert has_change. induction pre as [|txout pre IH]; intros has_change.
  - simpl. rewrite orb_false_r.
    by destruct (tx_outputs_loop tx keystore any has_change rest).
  - rewrite <- app_comm_cons, !tx_outputs_loop_cons, has_change_after, IH.
    simpl existsb. rewrite orb_assoc.
    destruct (if use_create_by_derivation any has_change txout
              then create_output_by_derivation tx keystore txout
              else create_output_by_address txout) as [o|e]; [|done].
    simpl.
    destruct (tx_outputs_loop tx keystore any _ pre) as [outs1|e]; [|done].
    simpl.
    by destruct (tx_outputs_loop tx keystore any _ rest).
Qed.

(** The request at a position of the list the loop returns. *)
Lemma tx_outputs_loop_lookup tx keystore any has_change txouts outs i txout :
  tx_outputs_loop tx keystore any has_change txouts = Ok outs →
  txouts !! i = Some txout →
  ∃ o, outs !! i = Some o ∧
    (if matches_change_branch any txout &&
        negb (has_change ||
              existsb (matches_change_branch any) (take i txouts))
     then create_output_by_derivation tx keystore txout
     else create_output_by_address txout) = Ok o.
Proof.
  revert has_change outs i.
  induction txouts as [|txout' rest IH]; intros has_change outs i Hl Hi;
    [done|].
  apply tx_outputs_loop_cons_inv in Hl as (o & outs' & -> & Ho & Hl).
  rewrite has_change_after in Hl.
  destruct i as [|i].
  - injection Hi as ->. exists o. split; [done|].
    rewrite use_create_by_derivation_matches in Ho.
    simpl. by rewrite orb_false_r.
  - simpl in Hi. destruct (IH _ _ _ Hl Hi) as (o' & Ho' & Hc).
    exists o'. split; [done|]. simpl. by rewrite orb_assoc.
Qed.

Lemma tx_outputs_loop_length tx keystore any has_change txouts outs :
  tx_outputs_loop tx keystore any has_change txouts = Ok outs →
  length outs = length txouts.
Proof.
  revert has_change outs.
  induction txouts as [|txout rest IH]; intros has_change outs Hl.
  - by injection Hl as <-.
  - apply tx_outputs_loop_cons_inv in Hl as (o & outs' & -> & _ & Hl).
    simpl. f_equal. by eapply IH.
Qed.

Lemma create_output_by_derivation_Ok tx keystore txout o :
  create_output_by_derivation tx keystore txout = Ok o →
  ∃ st ms,
    get_safet_output_script_type (script_type (out_partial txout)) = Ok st ∧
    multisig_of tx (of_txout txout) (out_partial txout) = Ok ms ∧
    truthy_list (find_my_pubkey_in_txinout keystore (of_txout txout)).2
      = true ∧
    o = {| to_address := None;
           to_address_n :=
             default [] (find_my_pubkey_in_txinout keystore (of_txout txout)).2;
           to_amount := Some (value txout);
           to_script_type := Some st;
           to_multisig := ms;
           to_op_return_data := None |}.
Proof.
  unfold create_output_by_derivation.
  destruct (get_safet_output_script_type _) as [st|]; [|discriminate]. simpl.
  destruct (multisig_of _ _ _) as [ms|]; [|discriminate]. simpl.
  destruct (find_my_pubkey_in_txinout _ _) as [pk path]. simpl.
  destruct (truthy_list path); [|discriminate]. simpl.
  intros [= <-]. by exists st, ms.
Qed.

Lemma create_output_by_address_Ok txout o :
  create_output_by_address txout = Ok o →
  to_amount o = Some (value txout) ∧ to_address_n o = [] ∧
  to_multisig o = None ∧
  (if truthy_str (address txout)
   then to_address o = address txout ∧ to_script_type o = Some PAYTOADDRESS ∧
        to_op_return_data o = None
   else to_address o = None ∧ to_script_type o = Some PAYTOOPRETURN ∧
        ∃ data, trezor_validate_op_return_output_and_get_data txout = Ok data ∧
                to_op_return_data o = Some data).
Proof.
  unfold create_output_by_address.
  destruct (truthy_str (address txout)).
  - by intros [= <-].
  - destruct (trezor_validate_op_return_output_and_get_data txout)
      as [data|]; [|discriminate].
    intros [= <-]. simpl. repeat split; eauto.
Qed.

(** X7: [tx_outputs] returns one request per output, in the order of the
    outputs, each with the amount of its output. *)
Theorem tx_outputs_pass_through tx keystore outs :
  tx_outputs tx keystore = Ok outs →
  length outs = length (outputs tx) ∧
  (∀ i txout, outputs tx !! i = Some txout →
     ∃ o, outs !! i = Some o ∧ to_amount o = Some (value txout)).
Proof.
  unfold tx_outputs. intros Hl. split; [by eapply tx_outputs_loop_length|].
  intros i txout Hi.
  destruct (tx_outputs_loop_lookup _ _ _ _ _ _ _ _ Hl Hi) as (o & Ho & Hc).
  exists o. split; [done|].
  destruct (_ && _).
  - by apply create_output_by_derivation_Ok in Hc as (st & ms & _ & _ & _ & ->).
  - by apply create_output_by_address_Ok in Hc as (? & _).
Qed.

(** X8: in the list [tx_outputs] returns, the request emitted by
    derivation is the one of the first output that the wallet owns and
    whose change flag is the transaction's change-branch classification;
    every other request is emitted by address. *)
Theorem by_derivation_is_first_match tx keystore outs i txout o :
  tx_outputs tx keystore = Ok outs →
  outputs tx !! i = Some txout →
  outs !! i = Some o →
  let any := is_any_tx_output_on_change_branch tx in
  emitted_by_derivation o = true ↔
    matches_change_branch any txout = true ∧
    existsb (matches_change_branch any) (take i (outputs tx)) = false.
Proof.
  intros Hl Hi Ho any. unfold tx_outputs in Hl. fold any in Hl.
  destruct (tx_outputs_loop_lookup _ _ _ _ _ _ _ _ Hl Hi) as (o' & Ho' & Hc).
  assert (o' = o) as -> by congruence.
  simpl in Hc.
  destruct (matches_change_branch any txout),
    (existsb (matches_change_branch any) (take i (outputs tx))); simpl in Hc.
  - rewrite (create_output_by_address_path _ _ Hc).
    split; [done|by intros [??]].
  - apply create_output_by_derivation_path in Hc as [-> _]. done.
  - rewrite (create_output_by_address_path _ _ Hc).
    split; [done|by intros [??]].
  - rewrite (create_output_by_address_path _ _ Hc).
    split; [done|by intros [??]].
Qed.

(** X9: a request that is not emitted by derivation carries no path and no
    multisig descriptor; for an output with an address it is a
    PAYTOADDRESS request to that address, and for an output without
    address a PAYTOOPRETURN request with the data the validator returns. *)
Theorem by_address_request tx keystore outs i txout o :
  tx_outputs tx keystore = Ok outs →
  outputs tx !! i = Some txout →
  outs !! i = Some o →
  emitted_by_derivation o = false →
  to_address_n o = [] ∧ to_multisig o = None ∧
  (if truthy_str (address txout)
   then to_address o = address txout ∧ to_script_type o = Some PAYTOADDRESS ∧
        to_op_return_data o = None
   else to_address o = None ∧ to_script_type o = Some PAYTOOPRETURN ∧
        ∃ data, trezor_validate_op_return_output_and_get_data txout = Ok data ∧
                to_op_return_data o = Some data).
Proof.
  unfold tx_outputs. intros Hl Hi Ho Hem.
  destruct (tx_outputs_loop_lookup _ _ _ _ _ _ _ _ Hl Hi) as (o' & Ho' & Hc).
  assert (o' = o) as -> by congruence.
  destruct (_ && _).
  - apply create_output_by_derivation_path in Hc as [Hc _]. congruence.
  - by apply create_output_by_address_Ok in Hc as (_ & ? & ? & ?).
Qed.

(** X10: the request emitted by derivation carries no address but the full
    path the keystore finds for the output, which is not empty; its script
    type is PAYTOADDRESS for a "p2pkh" output and PAYTOMULTISIG for a
    "p2sh" output, and it has no multisig descriptor when the output has at
    most one public key. *)
Theorem by_derivation_request tx keystore outs i txout o :
  tx_outputs tx keystore = Ok outs →
  outputs tx !! i = Some txout →
  outs !! i = Some o →
  emitted_by_derivation o = true →
  to_address o = None ∧ to_op_return_data o = None ∧
  (∃ n path,
     (find_my_pubkey_in_txinout keystore (of_txout txout)).2
       = Some (n :: path) ∧
     to_address_n o = n :: path) ∧
  (script_type (out_partial txout) = "p2pkh" ∧
     to_script_type o = Some PAYTOADDRESS ∨
   script_type (out_partial txout) = "p2sh" ∧
     to_script_type o = Some PAYTOMULTISIG) ∧
  ((length (pubkeys (out_partial txout)) ≤ 1)%nat → to_multisig o = None).
Proof.
  unfold tx_outputs. intros Hl Hi Ho Hem.
  destruct (tx_outputs_loop_lookup _ _ _ _ _ _ _ _ Hl Hi) as (o' & Ho' & Hc).
  assert (o' = o) as -> by congruence.
  destruct (_ && _).
  - apply create_output_by_derivation_Ok in Hc
      as (st & ms & Hst & Hms & Hpath & ->).
    simpl. split; [done|]. split; [done|]. split; [|split].
    + destruct (find_my_pubkey_in_txinout keystore (of_txout txout)).2
        as [[|n path]|]; try discriminate. by exists n, path.
    + unfold get_safet_output_script_type in Hst.
      destruct (decide (script_type (out_partial txout) = "p2pkh"));
        [injection Hst as <-; by left|].
      destruct (decide (script_type (out_partial txout) = "p2sh"));
        [injection Hst as <-; by right|discriminate].
    + intros Hlen. unfold multisig_of in Hms.
      rewrite decide_False in Hms by lia. by injection Hms as <-.
  - apply create_output_by_address_path in Hc. congruence.
Qed.

(** X11: when the first output that the wallet owns and that matches the
    change-branch classification has no path in the keystore,
    [tx_outputs] returns no list; it raises [AssertionError] when the
    outputs before translate and the output's script type and multisig
    descriptor are built. *)
Theorem owned_output_without_path tx keystore pre txout post :
  outputs tx = (pre ++ txout :: post)%list →
  let any := is_any_tx_output_on_change_branch tx in
  matches_change_branch any txout = true →
  existsb (matches_change_branch any) pre = false →
  truthy_list (find_my_pubkey_in_txinout keystore (of_txout txout)).2
    = false →
  (∃ e, tx_outputs tx keystore = Raise e) ∧
  (is_Ok (tx_outputs_loop tx keystore any false pre) = true →
   is_Ok (get_safet_output_script_type (script_type (out_partial txout)))
     = true →
   is_Ok (multisig_of tx (of_txout txout) (out_partial txout)) = true →
   tx_outputs tx keystore = Raise AssertionError).
Proof.
  intros Houts any Hmatch Hpre Hpath. unfold tx_outputs. fold any.
  rewrite Houts, tx_outputs_loop_app, Hpre, tx_outputs_loop_cons.
  rewrite use_create_by_derivation_matches, Hmatch. simpl.
  assert (∃ e, create_output_by_derivation tx keystore txout = Raise e ∧
            (is_Ok (get_safet_output_script_type
                      (script_type (out_partial txout))) = true →
             is_Ok (multisig_of tx (of_txout txout) (out_partial txout))
               = true → e = AssertionError)) as (e & -> & He).
  { unfold create_output_by_derivation.
    destruct (get_safet_output_script_type _) as [st|e1]; simpl;
      [|exists e1; split; [done|discriminate]].
    destruct (multisig_of _ _ _) as [ms|e2]; simpl;
      [|exists e2; split; [done|discriminate]].
    destruct (find_my_pubkey_in_txinout _ _) as [pk path]. simpl in *.
    rewrite Hpath. simpl. by exists AssertionError. }
  split.
  - destruct (tx_outputs_loop tx keystore any false pre); simpl; eauto.
  - intros Hok Hst Hms. rewrite (He Hst Hms).
    by destruct (tx_outputs_loop tx keystore any false pre).
Qed.
End outputs_more.



Section multisig_more.
Context `{Host}.
Import SafeTPlugin.


(** X13: [show_address] builds no multisig descriptor for a wallet with at
    most one master public key.  A descriptor it builds has the wallet's
    threshold, gives every co-signer the derivation suffix of the address,
    has as many co-signers as there are (public key, extended key) pairs,
    and lists them in ascending order of these pairs. *)
Theorem show_address_multisig_shape m xpubs pubkeys deriv_suffix :
  ((length xpubs ≤ 1)%nat →
   show_address_multisig m xpubs pubkeys deriv_suffix = Ok None) ∧
  (∀ d, show_address_multisig m xpubs pubkeys deriv_suffix = Ok (Some d) →
     ms_m d = m ∧
     Forall (λ n, node_address_n n = deriv_suffix) (ms_pubkeys d) ∧
     length (ms_pubkeys d) = (length pubkeys `min` length xpubs)%nat ∧
     ∃ pairs,
       Sorted pair_le pairs ∧ pairs ≡ₚ zip pubkeys xpubs ∧
       Forall2 (λ p n, _make_node_path p.2 deriv_suffix = Ok n)
         pairs (ms_pubkeys d)).
Proof.
  unfold show_address_multisig. split.
  - intros Hl. by rewrite decide_False by lia.
  - intros d. destruct (decide (1 < length xpubs)%nat); [|discriminate].
    intros Hd. apply make_multisig_Some in Hd as (_ & Hm & _ & Hmm).
    split; [done|].
    apply mapM_Ok_Forall2 in Hm. rewrite Forall2_fmap_l in Hm.
    assert (Forall2 (λ p n, _make_node_path p.2 deriv_suffix = Ok n)
              (sorted (zip pubkeys xpubs)) (ms_pubkeys d)) as Hpairs.
    { eapply Forall2_impl; [exact Hm|]. by intros [pubkey xpub] n. }
    split; [|split].
    + eapply Forall2_Forall_r; [exact Hpairs|].
      apply Forall_forall. intros [pubkey xpub] _ n. simpl.
      unfold _make_node_path. destruct (from_xkey xpub); [|discriminate].
      by intros [= <-].
    + rewrite <- (Forall2_length _ _ _ Hpairs). unfold sorted.
      by rewrite (Permutation_length (merge_sort_Permutation _ _)),
        length_zip_with.
    + exists (sorted (zip pubkeys xpubs)). split; [|split; [|done]].
      * apply Sorted_merge_sort, _.
      * apply merge_sort_Permutation.
Qed.
End multisig_more.

(** ** Hexadecimal keys *)
Lemma hex_value_digit (n : N) : (n < 16)%N → hex_value (hex_digit n) = n.
Proof.
  intros Hn. destruct n as [|p]; [reflexivity|].
  repeat (destruct p as [p|p|]; try reflexivity; try lia).
Qed.

Lemma byte_hex_inj b1 b2 : byte_hex b1 = byte_hex b2 → b1 = b2.
Proof.
  unfold byte_hex. intros [= Hhi Hlo].
  pose proof (Byte.to_N_bounded b1) as Hb1.
  pose proof (Byte.to_N_bounded b2) as Hb2.
  apply (f_equal hex_value) in Hhi, Hlo.
  rewrite !hex_value_digit in Hhi, Hlo
    by (try apply N.mod_lt; try apply N.Div0.div_lt_upper_bound; lia).
  assert (Byte.to_N b1 = Byte.to_N b2) as Heq.
  { rewrite (N.div_mod (Byte.to_N b1) 16), (N.div_mod (Byte.to_N b2) 16)
      by lia. congruence. }
  apply (f_equal Byte.of_N) in Heq. rewrite !Byte.of_to_N in Heq.
  congruence.
Qed.

Lemma bytes_hex_inj (a b : bytes) : bytes_hex a = bytes_hex b → a = b.
Proof.
  revert b. induction a as [|x a IH]; intros [|y b]; simpl;
    rewrite ?byte_hex_append; try done.
  intros [= Hhi Hlo Hrest].
  f_equal; [|by apply IH].
  apply byte_hex_inj. unfold byte_hex. congruence.
Qed.

(** ** More on the signing session *)
Section session_more.
Context `{Host}.

Local Abbreviation key txin := (bytes_hex (txid (prevout txin))).

Lemma collect_prev_tx_cons_inv acc txin rest m :
  SafeTKeyStore.collect_prev_tx acc (txin :: rest) = Ok m →
  ∃ u, utxo txin = Some u ∧
       SafeTKeyStore.collect_prev_tx (<[key txin := u]> acc) rest = Ok m.
Proof. simpl. destruct (utxo txin) as [u|]; [eauto|discriminate]. Qed.

Lemma collect_prev_tx_other acc txins m h :
  SafeTKeyStore.collect_prev_tx acc txins = Ok m →
  (∀ txin, txin ∈ txins → key txin ≠ h) →
  m !! h = acc !! h.
Proof.
  revert acc. induction txins as [|txin rest IH]; intros acc Hm Hne.
  - by injection Hm as <-.
  - apply collect_prev_tx_cons_inv in Hm as (u & _ & Hm).
    rewrite (IH _ Hm) by (intros; apply Hne; by right).
    apply lookup_insert_ne, Hne. by left.
Qed.

Lemma collect_prev_tx_keeps acc txins m h :
  SafeTKeyStore.collect_prev_tx acc txins = Ok m →
  is_Some (acc !! h) → is_Some (m !! h).
Proof.
  revert acc. induction txins as [|txin rest IH]; intros acc Hm Hs.
  - by injection Hm as <-.
  - apply collect_prev_tx_cons_inv in Hm as (u & _ & Hm).
    apply (IH _ Hm). destruct (decide (key txin = h)) as [<-|Hne].
    + rewrite lookup_insert_eq. eauto.
    + by rewrite lookup_insert_ne.
Qed.

Lemma collect_prev_tx_from acc txins m h u :
  SafeTKeyStore.collect_prev_tx acc txins = Ok m →
  m !! h = Some u →
  acc !! h = Some u ∨
  ∃ txin, txin ∈ txins ∧ h = key txin ∧ utxo txin = Some u.
Proof.
  revert acc. induction txins as [|txin rest IH]; intros acc Hm Hh.
  - injection Hm as <-. by left.
  - apply collect_prev_tx_cons_inv in Hm as (u' & Hu' & Hm).
    destruct (IH _ Hm Hh) as [Hacc|(txin' & Hin & Hk & Hu)].
    + destruct (decide (key txin = h)) as [<-|Hne].
      * rewrite lookup_insert_eq in Hacc. injection Hacc as ->.
        right. exists txin. split; [by left|done].
      * rewrite lookup_insert_ne in Hacc by done. by left.
    + right. exists txin'. split; [by right|done].
Qed.

(** X14: the map the keystore fills from the inputs holds, under the hex
    id of its previous output, a previous transaction for every input; it
    holds nothing but the [utxo] of inputs; and under an input's key it
    holds that input's [utxo] unless a later input spends from a
    transaction with the same id (the later input wins). *)
Theorem collect_prev_tx_map txins m :
  SafeTKeyStore.collect_prev_tx ∅ txins = Ok m →
  (∀ txin, txin ∈ txins → is_Some (m !! key txin)) ∧
  (∀ h u, m !! h = Some u →
     ∃ txin, txin ∈ txins ∧ h = key txin ∧ utxo txin = Some u) ∧
  (∀ i txin, txins !! i = Some txin →
     (∀ j txin', (i < j)%nat → txins !! j = Some txin' →
                 txid (prevout txin') ≠ txid (prevout txin)) →
     m !! key txin = utxo txin).
Proof.
  intros Hm. split; [|split].
  - revert Hm. generalize (∅ : gmap string Transaction).
    induction txins as [|txin rest IH]; intros acc Hm txin' Hin.
    + by apply elem_of_nil in Hin.
    + apply collect_prev_tx_cons_inv in Hm as (u & _ & Hm).
      apply elem_of_cons in Hin as [->|Hin]; [|by eapply IH].
      apply (collect_prev_tx_keeps _ _ _ _ Hm).
      rewrite lookup_insert_eq. eauto.
  - intros h u Hh.
    destruct (collect_prev_tx_from _ _ _ _ _ Hm Hh) as [Hacc|?]; [|done].
    by rewrite lookup_empty in Hacc.
  - revert Hm. generalize (∅ : gmap string Transaction).
    induction txins as [|txin rest IH]; intros acc Hm i txin' Hi Hlast;
      [done|].
    apply collect_prev_tx_cons_inv in Hm as (u & Hu & Hm).
    destruct i as [|i].
    + injection Hi as <-.
      rewrite (collect_prev_tx_other _ _ _ (key txin) Hm).
      * by rewrite lookup_insert_eq.
      * intros x Hin Hk. apply list_elem_of_lookup in Hin as [j Hj].
        apply (Hlast (S j) x); [lia|done|]. by apply bytes_hex_inj.
    + apply (IH _ Hm i); [done|].
      intros j x Hij Hj. apply (Hlast (S j)); [lia|done].
Qed.

(** X15: for an incomplete transaction one of whose inputs has no
    previous transaction, the keystore's [sign_transaction] raises
    [UserFacingException] and changes nothing: [prev_tx] is not stored and
    the device is not called. *)
Theorem sign_transaction_missing_utxo keystore w :
  is_complete (wallet_tx w) = false →
  Exists (λ txin, utxo txin = None) (inputs (wallet_tx w)) →
  SafeTKeyStore.sign_transaction keystore w =
    (Raise (UserFacingException "Missing previous tx for legacy input."), w).
Proof.
  intros Hc Hex.
  assert (∀ acc, SafeTKeyStore.collect_prev_tx acc (inputs (wallet_tx w)) =
            Raise (UserFacingException "Missing previous tx for legacy input."))
    as Hcol.
  { induction Hex as [txin l Hu|txin l _ IH]; intros acc; simpl.
    - by rewrite Hu.
    - destruct (utxo txin); [apply IH|done]. }
  unfold SafeTKeyStore.sign_transaction, sbind, read_tx, lift.
  by rewrite Hc, Hcol.
Qed.


(** X17: [get_tx] for a hash the map holds describes the stored
    transaction as parsed: its version and lock time, its inputs as
    translated in reference mode, and one binary output per output with
    the output's value and script; it fails only if parsing fails.  For no
    transaction [electrum_tx_to_txtype] gives the empty description. *)
Theorem get_tx_describes prev_tx h tx :
  prev_tx !! h = Some tx →
  match deserialize tx with
  | Raise e => SafeTPlugin.get_tx prev_tx h = Raise e
  | Ok tx' =>
      ∃ t, SafeTPlugin.get_tx prev_tx h = Ok t ∧
        tt_version t = Some (version tx') ∧
        tt_lock_time t = Some (locktime tx') ∧
        SafeTPlugin.tx_inputs tx' false None = Ok (tt_inputs t) ∧
        length (tt_bin_outputs t) = length (outputs tx') ∧
        (∀ i out, outputs tx' !! i = Some out →
           tt_bin_outputs t !! i =
             Some {| bin_amount := value out;
                     bin_script_pubkey := scriptpubkey out |})
  end ∧
  SafeTPlugin.electrum_tx_to_txtype None = Ok TransactionType_new.
Proof.
  intros Hh. split; [|done].
  unfold SafeTPlugin.get_tx, SafeTPlugin.electrum_tx_to_txtype. rewrite Hh.
  destruct (deserialize tx) as [tx'|e]; [|done]. simpl.
  destruct (tx_inputs_reference_total tx' None) as [reqs ->]. simpl.
  eexists. split; [done|]. simpl.
  repeat (split; [done|]). split; [by rewrite length_map|].
  intros i out Hi. change map with (@fmap list _) at 1.
  by rewrite list_lookup_fmap, Hi.
Qed.

(** X18: with the map the keystore fills from the inputs, [get_tx] finds
    a previous transaction under the hex id of the previous output of
    every input, so it does not fail on the lookup: it returns that
    transaction's description whenever the transaction parses. *)
Theorem get_tx_of_collected txins m txin :
  SafeTKeyStore.collect_prev_tx ∅ txins = Ok m →
  txin ∈ txins →
  ∃ u, m !! key txin = Some u ∧
       SafeTPlugin.get_tx m (key txin)
         = SafeTPlugin.electrum_tx_to_txtype (Some u) ∧
       (is_Ok (deserialize u) = true →
        is_Ok (SafeTPlugin.get_tx m (key txin)) = true).
Proof.
  intros Hm Hin.
  assert (is_Some (m !! key txin)) as [u Hu].
  { revert Hm. generalize (∅ : gmap string Transaction).
    induction txins as [|x rest IH]; intros acc Hm.
    - by apply elem_of_nil in Hin.
    - apply collect_prev_tx_cons_inv in Hm as (u & _ & Hm).
      apply elem_of_cons in Hin as [->|Hin]; [|by eapply IH].
      apply (collect_prev_tx_keeps _ _ _ _ Hm).
      rewrite lookup_insert_eq. eauto. }
  exists u. split; [done|].
  unfold SafeTPlugin.get_tx. rewrite Hu. split; [done|].
  unfold SafeTPlugin.electrum_tx_to_txtype.
  destruct (deserialize u) as [u'|]; [|discriminate]. intros _. simpl.
  by destruct (tx_inputs_reference_total u' None) as [reqs ->].
Qed.
End session_more.

(** ** Device set-up *)
Section setup_more.
Context `{SetupHost}.

Lemma device_call_log client ev log r log' :
  device_call client ev log = (r, log') →
  log' = ev :: log ∧
  (r = Done tt ∧ device_answer client ev = None ∨
   ∃ e, r = Raised e ∧ device_answer client ev = Some e).
Proof.
  unfold device_call. destruct (device_answer client ev) as [e|];
    intros [= <- <-]; eauto.
Qed.

(** X19: with a connected device and the choice [i] of the wizard (0, 1 or
    2), initializing with a new seed sends the single command
    [reset_device] with strength 64 * (i + 2), that is 128, 192 or 256, and
    recovering sends, after the warning and [client.step = 0], the single
    command [recovery_device] with 6 * (i + 2) words, that is 12, 18 or
    24. *)
Theorem initialize_device_seed_size i label pin_protection
    passphrase_protection device_id client log :
  client_by_id device_id = Some client →
  (0 ≤ i ≤ 2)%Z →
  (64 * (i + 2))%Z ∈ [128; 192; 256]%Z ∧
  (6 * (i + 2))%Z ∈ [12; 18; 24]%Z ∧
  _initialize_device (PInt i, label, pin_protection, passphrase_protection)
      TIM_NEW device_id log =
    device_call client
      (ResetDevice true (64 * (i + 2)) passphrase_protection pin_protection
         label "english" 0 false) log ∧
  _initialize_device (PInt i, label, pin_protection, passphrase_protection)
      TIM_RECOVER device_id log =
    device_call client
      (RecoveryDevice (6 * (i + 2)) passphrase_protection pin_protection
         label "english")
      (SetStep 0 :: ShowError (tr recover_warning) (Some true) :: log).
Proof.
  intros Hc Hi.
  assert (i = 0 ∨ i = 1 ∨ i = 2)%Z as Hcases by lia. clear Hi.
  split; [|split; [|split]].
  - destruct Hcases as [-> | [-> | ->]]; set_solver.
  - destruct Hcases as [-> | [-> | ->]]; set_solver.
  - unfold _initialize_device. by rewrite Hc.
  - unfold _initialize_device. by rewrite Hc.
Qed.

(** What a run of [_initialize_device] can do. *)
Lemma initialize_device_cases settings method device_id log r log' :
  _initialize_device settings method device_id log = (r, log') →
  ∃ warned,
    (warned = [] ∧ method ≠ TIM_RECOVER ∨
     warned = [ShowError (tr recover_warning) (Some true)] ∧
       method = TIM_RECOVER) ∧
    (client_by_id device_id = None ∧
       r = Raised (PlainException (tr "The device was disconnected.")) ∧
       log' = (warned ++ log)%list ∨
     is_Some (client_by_id device_id) ∧ r = Raised TypeError ∧
       log' = (warned ++ log)%list ∨
     ∃ client ev pre,
       client_by_id device_id = Some client ∧
       is_device_command ev = true ∧
       (pre = [] ∨ pre = [SetStep 0]) ∧
       log' = (ev :: pre ++ warned ++ log)%list ∧
       (r = Done tt ∧ device_answer client ev = None ∨
        ∃ e, r = Raised e ∧ device_answer client ev = Some e)).
Proof.
  destruct settings as [[[item label] pin_protection] passphrase_protection].
  unfold _initialize_device.
  set (log0 := if decide (method = TIM_RECOVER) then _ else _).
  intros Hrun.
  assert (∃ warned,
            (warned = [] ∧ method ≠ TIM_RECOVER ∨
             warned = [ShowError (tr recover_warning) (Some true)] ∧
               method = TIM_RECOVER) ∧
            log0 = (warned ++ log)%list) as (warned & Hw & Hlog0).
  { subst log0. destruct (decide (method = TIM_RECOVER)) as [Hrec|Hrec].
    - eexists. split; [by right|done].
    - exists []. split; [by left|done]. }
  exists warned. split; [done|]. rewrite <- Hlog0. clearbody log0.
  destruct (client_by_id device_id) as [client|];
    [|left; by injection Hrun as <- <-].
  right.
  assert (∀ ev pre, is_device_command ev = true →
            (pre = [] ∨ pre = [SetStep 0]) →
            device_call client ev (pre ++ log0)%list = (r, log') →
            ∃ client' ev pre,
              Some client = Some client' ∧ is_device_command ev = true ∧
              (pre = [] ∨ pre = [SetStep 0]) ∧
              log' = (ev :: pre ++ log0)%list ∧
              (r = Done tt ∧ device_answer client' ev = None ∨
               ∃ e, r = Raised e ∧ device_answer client' ev = Some e))
    as Hcall.
  { intros ev pre Hev Hpre Hd. apply device_call_log in Hd as (-> & Hr).
    by exists client, ev, pre. }
  destruct (decide (method = TIM_NEW)) as [Hnew|Hnew].
  { destruct (py_add_int item 2) as [n|e] eqn:Hadd.
    - right. eapply (Hcall _ []); [| |exact Hrun]; [done|by left].
    - left. injection Hrun as <- <-.
      destruct item; simpl in Hadd; by simplify_eq. }
  destruct (decide (method = TIM_RECOVER)) as [Hrec|Hrec].
  { destruct (py_add_int item 2) as [n|e] eqn:Hadd.
    - right. eapply (Hcall _ [SetStep 0]); [| |exact Hrun]; [done|by right].
    - left. injection Hrun as <- <-.
      destruct item; simpl in Hadd; by simplify_eq. }
  destruct (decide (method = TIM_MNEMONIC)) as [Hmn|Hmn];
    right; (eapply (Hcall _ []); [| |exact Hrun]; [done|by left]).
Qed.

(** X20: a run of [_initialize_device] only adds to the log, and sends the
    device at most one command, which is then the last thing it does.  It
    sends none when the device is disconnected, which raises the
    "disconnected" exception, and exactly one when it returns normally. *)
Theorem initialize_device_commands settings method device_id log r log' :
  _initialize_device settings method device_id log = (r, log') →
  ∃ evs, log' = (evs ++ log)%list ∧
    (length (List.filter is_device_command evs) ≤ 1)%nat ∧
    (∀ ev, ev ∈ evs → is_device_command ev = true → head evs = Some ev) ∧
    (client_by_id device_id = None →
     List.filter is_device_command evs = [] ∧
     r = Raised (PlainException (tr "The device was disconnected."))) ∧
    (r = Done tt → length (List.filter is_device_command evs) = 1%nat).
Proof.
  intros Hrun.
  apply initialize_device_cases in Hrun as (warned & Hw & Hcases).
  assert (List.filter is_device_command warned = [] ∧
          ∀ ev, ev ∈ warned → is_device_command ev = false) as [Hwf Hwin].
  { destruct Hw as [[-> _]|[-> _]]; (split; [done|]); intros ev Hin.
    - by apply elem_of_nil in Hin.
    - apply list_elem_of_singleton in Hin as ->. done. }
  destruct Hcases as [(Hc & -> & ->)|[(Hc & -> & ->)|
    (client & ev & pre & Hc & Hev & Hpre & -> & Hr)]].
  - exists warned. rewrite Hwf. split; [done|]. split; [simpl; lia|].
    split; [|done].
    intros ev Hin Hcmd. by rewrite (Hwin ev Hin) in Hcmd.
  - exists warned. rewrite Hwf. split; [done|]. split; [simpl; lia|].
    split; [|split; [|done]].
    + intros ev Hin Hcmd. by rewrite (Hwin ev Hin) in Hcmd.
    + intros Hnone. rewrite Hnone in Hc. by destruct Hc.
  - exists (ev :: pre ++ warned)%list.
    assert (List.filter is_device_command (pre ++ warned)%list = [] ∧
            ∀ ev', ev' ∈ (pre ++ warned)%list →
                   is_device_command ev' = false) as [Hpf Hpin].
    { destruct Hpre as [->| ->]; simpl; [done|]. split; [done|].
      intros ev' [->|Hin]%elem_of_cons; [done|by apply Hwin]. }
    split; [simpl; by rewrite <- app_assoc|].
    simpl. rewrite Hev, Hpf. simpl.
    split; [lia|]. split; [|split; [|done]].
    + intros ev' [->|Hin]%elem_of_cons Hcmd; [done|].
      by rewrite (Hpin ev' Hin) in Hcmd.
    + intros Hnone. congruence.
Qed.

(** X21: [_initialize_device_safe] lets no exception out and leaves the
    wizard's loop exactly once, as the last thing it does.  The exit code
    is 0 when [_initialize_device] returns and 1 when it raises; an
    exception other than [UserCancelled] is logged and shown to the user
    by its [repr], [UserCancelled] is not shown. *)
Theorem initialize_device_safe_exits settings method device_id log :
  let '(r, log1) := _initialize_device settings method device_id log in
  ∃ exit_code shown,
    _initialize_device_safe settings method device_id log =
      (LoopExit exit_code :: shown ++ log1)%list ∧
    (exit_code = 0%Z ∧ r = Done tt ∨ exit_code = 1%Z ∧ ∃ e, r = Raised e) ∧
    (shown = [] ∧ (r = Done tt ∨ r = Raised UserCancelled) ∨
     ∃ e, r = Raised e ∧ e ≠ UserCancelled ∧
          shown = [ShowError (repr e) None; LogException]) ∧
    ∃ evs, (shown ++ log1)%list = (evs ++ log)%list ∧
           List.filter is_loop_exit evs = [].
Proof.
  destruct (_initialize_device settings method device_id log)
    as [r log1] eqn:Hrun.
  assert (∃ evs, log1 = (evs ++ log)%list ∧
                 List.filter is_loop_exit evs = []) as (evs & -> & Hevs).
  { apply initialize_device_cases in Hrun as (warned & Hw & Hcases).
    assert (List.filter is_loop_exit warned = []) as Hwf
      by (by destruct Hw as [[-> _]|[-> _]]).
    destruct Hcases as [(_ & _ & ->)|[(_ & _ & ->)|
      (client & ev & pre & _ & Hev & Hpre & -> & _)]]; [by eauto..|].
    exists (ev :: pre ++ warned)%list. split; [simpl; by rewrite <- app_assoc|].
    simpl. destruct ev; try discriminate Hev;
      by destruct Hpre as [->| ->]. }
  unfold _initialize_device_safe. rewrite Hrun.
  destruct r as [[]|e].
  - exists 0%Z, []. repeat split; eauto.
  - destruct e.
    + exists 1%Z, []. repeat split; eauto.
    + exists 1%Z, [ShowError (repr TypeError) None; LogException].
      split; [done|]. split; [eauto|]. split; [right; eauto|].
      eexists (_ :: _ :: evs). by split; [|simpl].
    + eexists 1%Z, [ShowError _ None; LogException].
      split; [done|]. split; [eauto|]. split; [right; eauto|].
      eexists (_ :: _ :: evs). by split; [|simpl].
    + eexists 1%Z, [ShowError _ None; LogException].
      split; [done|]. split; [eauto|]. split; [right; eauto|].
      eexists (_ :: _ :: evs). by split; [|simpl].
    + eexists 1%Z, [ShowError _ None; LogException].
      split; [done|]. split; [eauto|]. split; [right; eauto|].
      eexists (_ :: _ :: evs). by split; [|simpl].
Qed.

End setup_more.

(** ** The further theorems at work on the sample wallet *)
Section more_examples.
Import Sample SampleMore.

Lemma tx_inputs_pass_through_witness :
  length spend_inputs = length (inputs spend).
Proof.
  exact (proj1 (tx_inputs_pass_through spend true (Some (ks good_device))
                  spend_inputs eq_refl)).
Defined.

Lemma tx_inputs_for_sig_asserts_witness :
  SafeTPlugin.tx_inputs plain_spend true (Some (ks good_device))
    = Raise AssertionError.
Proof.
  apply (tx_inputs_for_sig_asserts plain_spend (Some (ks good_device))
           (or_introl eq_refl)).
  apply Exists_cons_tl, Exists_cons_hd. reflexivity.
Defined.

Lemma tx_input_signing_metadata_witness :
  ∃ p, txin_partial owned_txin = Some p ∧
       ((length (pubkeys p) ≤ 1)%nat → ti_multisig owned_request = None).
Proof.
  destruct (tx_input_signing_metadata spend (Some (ks good_device))
              owned_txin owned_request eq_refl eq_refl)
    as (p & Hp & _ & Hm & _).
  exists p. split; [exact Hp|exact Hm].
Defined.

Lemma tx_input_signing_path_witness :
  ti_address_n owned_request = [0; 0; 5].
Proof.
  exact (tx_input_signing_path spend (ks good_device) owned_txin
           owned_request eq_refl eq_refl).
Defined.

Lemma tx_input_unexpected_type_witness :
  SafeTPlugin.tx_input (tx [p2pk_txin] [external_txout]) true
      (Some (ks good_device)) p2pk_txin
    = Raise (ValueError "unexpected txin type: p2pk").
Proof.
  apply (tx_input_unexpected_type (tx [p2pk_txin] [external_txout])
           (ks good_device) p2pk_txin
           {| pubkeys := [my_key]; num_sig := 0; script_type := "p2pk" |}
           None eq_refl eq_refl eq_refl eq_refl);
    discriminate.
Defined.

Lemma tx_outputs_pass_through_witness :
  length spend_outputs = length (outputs spend).
Proof.
  exact (proj1 (tx_outputs_pass_through spend (ks good_device) spend_outputs
                  eq_refl)).
Defined.

Lemma by_derivation_is_first_match_witness :
  emitted_by_derivation external_request = true ↔
    matches_change_branch true external_txout = true ∧
    existsb (matches_change_branch true) [change_txout] = false.
Proof.
  exact (by_derivation_is_first_match spend (ks good_device) spend_outputs
           1 external_txout external_request eq_refl eq_refl eq_refl).
Defined.

Lemma by_address_request_witness :
  to_address_n external_request = [] ∧
  to_multisig external_request = None ∧
  to_address external_request = Some "XsomeoneElse" ∧
  to_script_type external_request = Some PAYTOADDRESS ∧
  to_op_return_data external_request = None.
Proof.
  exact (by_address_request spend (ks good_device) spend_outputs
           1 external_txout external_request eq_refl eq_refl eq_refl eq_refl).
Defined.

Lemma by_derivation_request_witness :
  to_address change_request = None ∧
  ∃ n path, to_address_n change_request = n :: path.
Proof.
  destruct (by_derivation_request spend (ks good_device) spend_outputs
              0 change_txout change_request eq_refl eq_refl eq_refl eq_refl)
    as (Ha & _ & (n & path & _ & Hp) & _).
  split; [exact Ha|]. exists n, path. exact Hp.
Defined.

Lemma owned_output_without_path_witness :
  SafeTPlugin.tx_outputs (tx [owned_txin] [unresolved_txout; external_txout])
      (ks good_device)
    = Raise AssertionError.
Proof.
  apply (owned_output_without_path
           (tx [owned_txin] [unresolved_txout; external_txout])
           (ks good_device) [] unresolved_txout [external_txout]);
    reflexivity.
Defined.

Lemma collect_prev_tx_map_witness :
  spend_prev_tx !! bytes_hex (txid (prevout owned_txin)) = Some funding_tx.
Proof.
  apply (proj2 (proj2 (collect_prev_tx_map (inputs spend) spend_prev_tx
                         eq_refl)) 1%nat owned_txin eq_refl).
  intros [|[|j]] txin' Hlt Hj; [lia|lia|discriminate Hj].
Defined.

Lemma sign_transaction_missing_utxo_witness :
  SafeTKeyStore.sign_transaction (ks good_device)
      (world (tx [bare_txin] [external_txout]))
    = (Raise (UserFacingException "Missing previous tx for legacy input."),
       world (tx [bare_txin] [external_txout])).
Proof.
  apply sign_transaction_missing_utxo; [reflexivity|].
  apply Exists_cons_hd. reflexivity.
Defined.


Lemma get_tx_describes_witness :
  ∃ t, SafeTPlugin.get_tx spend_prev_tx "1234" = Ok t ∧
       tt_version t = Some 2 ∧ length (tt_bin_outputs t) = 1%nat.
Proof.
  pose proof (proj1 (get_tx_describes spend_prev_tx "1234" funding_tx
                       eq_refl)) as Hd.
  simpl in Hd. destruct Hd as (t & Ht & Hv & _ & _ & Hlen & _).
  exists t. split; [exact Ht|]. split; [exact Hv|exact Hlen].
Defined.

Lemma get_tx_of_collected_witness :
  ∃ u, spend_prev_tx !! "1234" = Some u ∧
       SafeTPlugin.get_tx spend_prev_tx "1234"
         = SafeTPlugin.electrum_tx_to_txtype (Some u).
Proof.
  destruct (get_tx_of_collected (inputs spend) spend_prev_tx owned_txin
              eq_refl) as (u & Hu & Hg & _).
  - apply elem_of_cons. right. apply elem_of_cons. left. reflexivity.
  - exists u. split; [exact Hu|exact Hg].
Defined.

Lemma initialize_device_seed_size_witness :
  _initialize_device (SampleSetup.settings (PInt 1)) TIM_NEW "dev0" [] =
    (Done tt,
     [ResetDevice true 192 (PBool false) (PBool true) (PStr "my device")
        "english" 0 false]).
Proof.
  pose proof (initialize_device_seed_size 1 (PStr "my device") (PBool true)
                (PBool false) "dev0" (1, 0, 5) [] eq_refl ltac:(lia))
    as (_ & _ & Hnew & _).
  exact Hnew.
Defined.

Lemma initialize_device_commands_witness :
  ∃ evs,
    [LoadDeviceByXprv (PStr "xprv") (PBool true) (PBool false)
       (PStr "my device") "english"] = (evs ++ [])%list ∧
    (length (List.filter is_device_command evs) ≤ 1)%nat.
Proof.
  assert (_initialize_device (SampleSetup.settings (PStr "xprv"))
            TIM_PRIVKEY "dev0" [] =
          (Raised UserCancelled,
           [LoadDeviceByXprv (PStr "xprv") (PBool true) (PBool false)
              (PStr "my device") "english"])) as Hrun
    by (vm_compute; reflexivity).
  destruct (initialize_device_commands _ _ _ _ _ _ Hrun)
    as (evs & Hlog & Hlen & _).
  exists evs. split; [exact Hlog|exact Hlen].
Defined.

End more_examples.
